(** * image-embedding-api: the caption and embedding route handlers

    A shallow embedding of [src/api/describe.ts] and [src/api/embed.ts].

    Both handlers are [async] functions that thread module-scope state and
    thrown errors through a chain of [await]s, so they are written in a small
    resumption monad [prog]: synchronous steps on a store, thrown errors, and
    explicit suspension points.  The monad has two readings: [exec] runs one
    request to completion, and [Embed.run_schedule] interleaves several
    requests at their suspension points, the way the event loop does.

    Everything the handlers obtain from outside the repository (the request
    body, the chat-completion API, the transformers library and the models it
    loads) is a field of a request or of a [World] record: the handlers are
    verified for every request and every world.

    Left out: the assignment to [process.env.TRANSFORMERS_CACHE] when
    [embed.ts] is loaded. *)

From Stdlib Require Import Strings.String Strings.Ascii Strings.Byte.
From Stdlib Require Import NArith.NArith Lia.
From Stdlib Require Import Floats.PrimFloat.
From stdpp Require Import base option list.

Local Open Scope string_scope.
Local Open Scope list_scope.

(** ** JavaScript prelude *)

Module JS.

(** A thrown value.  The handlers only ever look at [err?.message], which
    is absent ([None]) for a nullish thrown value or one without the
    property. *)
Record Exn : Type := mkExn { message : option string }.

Definition Error (msg : string) : Exn := mkExn (Some msg).

(** A [TypeError] raised by the runtime itself (calling or destructuring
    something that is not there). *)
Definition TypeError (msg : string) : Exn := mkExn (Some msg).

(** A promise, identified with the way it settles.  When it settles is
    left to the scheduler. *)
Inductive Promise (T : Type) : Type :=
| Resolved (v : T)
| Rejected (e : Exn).
Arguments Resolved {T} v.
Arguments Rejected {T} e.

(** Truthiness of a string: [""] is the only falsy string. *)
Definition truthy (s : string) : bool :=
  if String.eqb s "" then false else true.

(** Truthiness of [string | undefined]. *)
Definition truthy_opt (s : option string) : bool :=
  match s with
  | Some s => truthy s
  | None => false
  end.

(** A [string | undefined] that passed a truthiness test. *)
Definition if_truthy (s : option string) : option string :=
  match s with
  | Some s => if truthy s then Some s else None
  | None => None
  end.

(** [a || b] on strings. *)
Definition or_else (a b : string) : string :=
  if truthy a then a else b.

(** *** Programs with suspension points *)

Section Prog.
Context {St : Type}.

Inductive prog (A : Type) : Type :=
| Ret (a : A)
| Throw (e : Exn)
| Sync {B : Type} (m : St -> St * B) (k : B -> prog A)
| Await (k : prog A).
Arguments Ret {A} a.
Arguments Throw {A} e.
Arguments Sync {A B} m k.
Arguments Await {A} k.

Fixpoint bind {A B : Type} (p : prog A) (f : A -> prog B) : prog B :=
  match p with
  | Ret a => f a
  | Throw e => Throw e
  | Sync m k => Sync m (fun b => bind (k b) f)
  | Await k => Await (bind k f)
  end.

(** [try { p } catch (e) { h e }] *)
Fixpoint try_catch {A : Type} (p : prog A) (h : Exn -> prog A) : prog A :=
  match p with
  | Ret a => Ret a
  | Throw e => h e
  | Sync m k => Sync m (fun b => try_catch (k b) h)
  | Await k => Await (try_catch k h)
  end.

(** A synchronous action on the store. *)
Definition act {B : Type} (m : St -> St * B) : prog B := Sync m Ret.

(** [await p]: suspend, then continue with the value or throw the
    reason. *)
Definition await {T : Type} (p : Promise T) : prog T :=
  Await (match p with
         | Resolved v => Ret v
         | Rejected e => Throw e
         end).

(** [await f(...)] for an [async function f]: the body runs up to its
    first own suspension point inside the caller's turn; the caller
    then suspends on the promise the call returned, and resumes with the
    returned value or the thrown error. *)
Definition await_call {T : Type} (body : prog T) : prog T :=
  try_catch (bind body (fun v => Await (Ret v)))
            (fun e => Await (Throw e)).

(** Run one request to completion, ignoring where it suspends. *)
Fixpoint exec {A : Type} (p : prog A) (s : St) : St * Promise A :=
  match p with
  | Ret a => (s, Resolved a)
  | Throw e => (s, Rejected e)
  | Sync m k => let '(s', b) := m s in exec (k b) s'
  | Await k => exec k s
  end.

(** [exec] of a sequence, and of a [try]: what follows a result. *)
Definition then_exec {A B : Type} (f : A -> prog B) (r : St * Promise A)
  : St * Promise B :=
  match r with
  | (s, Resolved a) => exec (f a) s
  | (s, Rejected e) => (s, Rejected e)
  end.

Definition else_exec {A : Type} (h : Exn -> prog A) (r : St * Promise A)
  : St * Promise A :=
  match r with
  | (s, Resolved a) => (s, Resolved a)
  | (s, Rejected e) => exec (h e) s
  end.

(** Run up to the next suspension point (or to the end). *)
Fixpoint run_sync {A : Type} (p : prog A) (s : St) : St * prog A :=
  match p with
  | Sync m k => let '(s', b) := m s in run_sync (k b) s'
  | _ => (s, p)
  end.

(** Give a task the next turn of the event loop: a suspended task
    resumes and runs to its next suspension point. *)
Definition resume {A : Type} (p : prog A) (s : St) : St * prog A :=
  match p with
  | Await k => run_sync k s
  | _ => run_sync p s
  end.

(** What a task runs when it is given a turn. *)
Definition next_turn {A : Type} (p : prog A) : prog A :=
  match p with
  | Await k => k
  | _ => p
  end.

(** *** Invariants over turns

    [I] is to hold of the store whenever no task is running, and [R] is to
    relate the store at the start of a turn to the store at its end. *)
Section Turns.
Context (I : St -> Prop) (R : St -> St -> Prop).

(** [ends s0 s]: a turn that started in [s0] may end in [s]. *)
Definition ends (s0 s : St) : Prop := I s /\ R s0 s.

(** [wp p Q E s0 s]: when [p] runs from [s], in a turn that started in
    [s0], every turn ends well, and [p] returns under [Q] or throws under
    [E] (both see the start of the current turn and the current store). *)
Fixpoint wp {A : Type} (p : prog A)
  (Q : A -> St -> St -> Prop) (E : Exn -> St -> St -> Prop)
  (s0 s : St) : Prop :=
  match p with
  | Ret a => Q a s0 s
  | Throw e => E e s0 s
  | Sync m k => wp (k (snd (m s))) Q E s0 (fst (m s))
  | Await k => ends s0 s /\ forall s1, I s1 -> wp k Q E s1 s1
  end.

(** [p] keeps the discipline wherever it is run, and returns under [P]. *)
Definition ok {A : Type} (P : A -> Prop) (p : prog A) : Prop :=
  forall Q E,
    (forall a s0 s, P a -> ends s0 s -> Q a s0 s) ->
    (forall e s0 s, ends s0 s -> E e s0 s) ->
    forall s0 s, ends s0 s -> wp p Q E s0 s.

(** A task of the pool that keeps the discipline from its next turn on. *)
Definition pending {A : Type} (p : prog A) : Prop :=
  forall s, I s -> wp (next_turn p) (fun _ => ends) (fun _ => ends) s s.

(** As [ok], and [p] throws under [PE] only. *)
Definition okx {A : Type} (P : A -> Prop) (PE : Exn -> Prop) (p : prog A) : Prop :=
  forall Q E,
    (forall a s0 s, P a -> ends s0 s -> Q a s0 s) ->
    (forall e s0 s, PE e -> ends s0 s -> E e s0 s) ->
    forall s0 s, ends s0 s -> wp p Q E s0 s.

(** A task of the pool that keeps the discipline, never throws, and can
    only return [x]. *)
Definition settles {A : Type} (x : A) (p : prog A) : Prop :=
  match p with
  | Ret a => a = x
  | Throw _ => False
  | _ => forall s, I s ->
                   wp (next_turn p) (fun a s0 s => a = x /\ ends s0 s)
                      (fun _ _ _ => False) s s
  end.
End Turns.
End Prog.

Arguments prog St A : clear implicits.
Arguments Ret {St A} a.
Arguments Throw {St A} e.
Arguments Sync {St A B} m k.
Arguments Await {St A} k.

(** *** Values handed to [JSON.stringify]

    A response body is modelled as the value that is serialised, not as
    the text: number formatting is outside the model. *)

(** A JavaScript number is an IEEE 754 binary64 value. *)
Definition number : Type := PrimFloat.float.

#[warnings="-register-all"]
Inductive Value : Type :=
| VString (s : string)
| VNumbers (xs : list number)             (* number[] *)
| VObject (fields : list (string * Value)).

Record Response : Type := mkResponse {
  body : Value;
  status : nat;
  headers : list (string * string)
}.

(** [{ error: msg }] *)
Definition error_object (msg : string) : Value :=
  VObject [("error", VString msg)].

Definition json_headers : list (string * string) :=
  [("content-type", "application/json")].

(** Property lookup on a serialised value. *)
Fixpoint assoc (k : string) (l : list (string * Value)) : option Value :=
  match l with
  | [] => None
  | (k', v) :: l' => if String.eqb k k' then Some v else assoc k l'
  end.

Definition field (k : string) (v : Value) : option Value :=
  match v with
  | VObject l => assoc k l
  | _ => None
  end.

End JS.

Declare Scope prog_scope.
Delimit Scope prog_scope with prog.
Notation "x <- c ;; k" := (JS.bind c (fun x => k))
  (at level 100, c at next level, right associativity) : prog_scope.
Notation "c ;; k" := (JS.bind c (fun _ => k))
  (at level 100, right associativity) : prog_scope.

(** ** [Buffer.prototype.toString('base64')]

    Node's encoder: RFC 4648 section 4, the standard alphabet, padded with
    [=] to a multiple of four characters. *)

Module Base64.

Definition alphabet : list ascii :=
  list_ascii_of_string
    "ABCDEFGHIJKLMNOPQRSTUVWXYZabcdefghijklmnopqrstuvwxyz0123456789+/".

Definition pad : ascii := "="%char.

(** The character of a six-bit group. *)
Definition char_of (n : N) : ascii :=
  nth (N.to_nat n) alphabet pad.

Fixpoint index_from (c : ascii) (l : list ascii) (i : N) : option N :=
  match l with
  | [] => None
  | c' :: l' => if Ascii.eqb c c' then Some i else index_from c l' (N.succ i)
  end.

(** The six-bit group of a character of the alphabet. *)
Definition index_of (c : ascii) : option N := index_from c alphabet 0%N.

Fixpoint encode (bs : list byte) : string :=
  match bs with
  | [] => EmptyString
  | [a] =>
      let x := Byte.to_N a in
      String (char_of (x / 4))
        (String (char_of ((x mod 4) * 16))
           (String pad (String pad EmptyString)))
  | [a; b] =>
      let x := Byte.to_N a in
      let y := Byte.to_N b in
      String (char_of (x / 4))
        (String (char_of ((x mod 4) * 16 + y / 16))
           (String (char_of ((y mod 16) * 4))
              (String pad EmptyString)))
  | a :: b :: c :: rest =>
      let x := Byte.to_N a in
      let y := Byte.to_N b in
      let z := Byte.to_N c in
      String (char_of (x / 4))
        (String (char_of ((x mod 4) * 16 + y / 16))
           (String (char_of ((y mod 16) * 4 + z / 64))
              (String (char_of (z mod 64))
                 (encode rest))))
  end%N.

(** The decoder the receiving side applies to a padded payload. *)
Fixpoint decode (s : string) : option (list byte) :=
  match s with
  | EmptyString => Some []
  | String c1 (String c2 (String c3 (String c4 rest))) =>
      i1 ← index_of c1;
      i2 ← index_of c2;
      if Ascii.eqb c3 pad then
        if Ascii.eqb c4 pad then
          match rest with
          | EmptyString =>
              a ← Byte.of_N (i1 * 4 + i2 / 16);
              Some [a]
          | _ => None
          end
        else None
      else
        i3 ← index_of c3;
        if Ascii.eqb c4 pad then
          match rest with
          | EmptyString =>
              a ← Byte.of_N (i1 * 4 + i2 / 16);
              b ← Byte.of_N ((i2 mod 16) * 16 + i3 / 4);
              Some [a; b]
          | _ => None
          end
        else
          i4 ← index_of c4;
          a ← Byte.of_N (i1 * 4 + i2 / 16);
          b ← Byte.of_N ((i2 mod 16) * 16 + i3 / 4);
          c ← Byte.of_N ((i3 mod 4) * 64 + i4);
          tl ← decode rest;
          Some (a :: b :: c :: tl)
  | _ => None
  end%N.

(** The six-bit groups. *)
Definition sextets : list N := map N.of_nat (seq 0 64).

Definition bytes_of_string (s : string) : list byte :=
  map byte_of_ascii (list_ascii_of_string s).

End Base64.

(** ** [src/api/describe.ts]: the caption handler *)

Module Describe.
Import JS.

(** *** The chat-completion API, as the handler uses it *)

Inductive ContentPart : Type :=
| TextPart (text : string)                 (* { type: 'text', text } *)
| ImageUrlPart (url : string).             (* { type: 'image_url', image_url: { url } } *)

Record ChatMessage : Type := mkChatMessage {
  role : string;
  content : list ContentPart
}.

Record ChatRequest : Type := mkChatRequest {
  model : string;
  messages : list ChatMessage
}.

Record ChoiceMessage : Type := mkChoiceMessage {
  message_content : option string          (* string | null *)
}.

Record Choice : Type := mkChoice {
  choice_message : option ChoiceMessage
}.

Record ChatCompletion : Type := mkChatCompletion {
  choices : list Choice
}.

(** *** The request *)

Record File : Type := mkFile {
  file_bytes : list byte;
  file_type : string                       (* [""] when none is declared *)
}.

Inductive FormDataEntryValue : Type :=
| EntryFile (f : File)
| EntryString (s : string).

Definition FormData : Type := list (string * FormDataEntryValue).

(** [formData.get(name)]: the first value of that name, or [null]. *)
Fixpoint get (name : string) (fd : FormData) : option FormDataEntryValue :=
  match fd with
  | [] => None
  | (n, v) :: fd' => if String.eqb n name then Some v else get name fd'
  end.

Record Request : Type := mkRequest {
  formData : Promise FormData              (* [request.formData()] *)
}.

(** *** What is outside the handler *)

(** [chat_completions_create apiKey req] is what
    [openai.chat.completions.create(req)] returns for a client built with
    [apiKey]. *)
Record World : Type := mkWorld {
  chat_completions_create : string -> ChatRequest -> Promise ChatCompletion
}.

Record Store : Type := mkStore {
  OPENAI_API_KEY : option string;          (* [process.env.OPENAI_API_KEY] *)
  upstream_calls : list ChatRequest;       (* calls issued to the API, oldest first *)
  console : list Exn                       (* what [console.error] was given *)
}.

Section Handler.
Context (w : World).

Local Open Scope prog_scope.

(** The client is represented by the key it was built with. *)
Definition getOpenAIClient : prog Store string :=
  key <- act (fun s => (s, OPENAI_API_KEY s)) ;;
  match key with
  | Some k =>
      if truthy k then Ret k
      else Throw (Error "OPENAI_API_KEY environment variable is required")
  | None => Throw (Error "OPENAI_API_KEY environment variable is required")
  end.

Definition prompt : string :=
  "You create descriptions of images. Provided with an image describe the image. You can describe unambiguously the image".

Definition data_url (mimeType base64Image : string) : string :=
  "data:" ++ mimeType ++ ";base64," ++ base64Image.

Definition caption_request (base64Image mimeType : string) : ChatRequest :=
  mkChatRequest "gpt-5-nano"
    [mkChatMessage "user"
       [TextPart prompt; ImageUrlPart (data_url mimeType base64Image)]].

(** [openai.chat.completions.create(req)]: issues the call and returns
    its promise. *)
Definition create (openai : string) (req : ChatRequest)
  : prog Store (Promise ChatCompletion) :=
  act (fun s =>
         (mkStore (OPENAI_API_KEY s) (upstream_calls s ++ [req]) (console s),
          chat_completions_create w openai req)).

(** [response.choices[0]?.message?.content] *)
Definition first_content (response : ChatCompletion) : option string :=
  match choices response with
  | [] => None
  | c :: _ =>
      match choice_message c with
      | Some m => message_content m
      | None => None
      end
  end.

Definition generateImageDescription (base64Image mimeType : string)
  : prog Store string :=
  openai <- getOpenAIClient ;;
  pending <- create openai (caption_request base64Image mimeType) ;;
  response <- await pending ;;
  let caption := first_content response in
  if negb (truthy_opt caption) then
    Throw (Error "Failed to generate caption")
  else
    match caption with
    | Some c => Ret c
    | None => Throw (Error "Failed to generate caption")
    end.

Record Encoded : Type := mkEncoded {
  base64 : string;
  mimeType : string
}.

(** [file.arrayBuffer()] of an uploaded file resolves to its bytes. *)
Definition arrayBuffer (f : File) : Promise (list byte) :=
  Resolved (file_bytes f).

(** The argument is whatever [formData.get] returned: the cast
    [as File] checks nothing, and a string entry has no
    [arrayBuffer] method. *)
Definition convertFileToBase64 (file : FormDataEntryValue)
  : prog Store Encoded :=
  match file with
  | EntryFile f =>
      bytes <- await (arrayBuffer f) ;;
      let base64 := Base64.encode bytes in
      let mimeType := or_else (file_type f) "image/jpeg" in
      Ret (mkEncoded base64 mimeType)
  | EntryString _ => Throw (TypeError "file.arrayBuffer is not a function")
  end.

(** Truthiness of a value returned by [formData.get]. *)
Definition truthy_entry (v : option FormDataEntryValue) : bool :=
  match v with
  | None => false
  | Some (EntryString s) => truthy s
  | Some (EntryFile _) => true
  end.

Definition console_error (error : Exn) : prog Store unit :=
  act (fun s =>
         (mkStore (OPENAI_API_KEY s) (upstream_calls s) (console s ++ [error]),
          tt)).

Definition no_image : Response :=
  mkResponse (error_object "No image file provided") 400 json_headers.

Definition failed : Response :=
  mkResponse (error_object "Failed to process image") 500 json_headers.

Definition POST (request : Request) : prog Store Response :=
  try_catch
    (formData <- await (formData request) ;;
     let file := get "image" formData in
     match file with
     | Some f =>
         if negb (truthy_entry file) then Ret no_image
         else
           r <- await_call (convertFileToBase64 f) ;;
           caption <- await_call
                        (generateImageDescription (base64 r) (mimeType r)) ;;
           Ret (mkResponse (VString caption) 200 json_headers)
     | None => Ret no_image
     end)
    (fun error =>
       console_error error ;;
       Ret failed).
End Handler.

End Describe.

(** ** [src/api/embed.ts]: the embedding handler *)

Module Embed.
Import JS.

(** *** The transformers library, as the handler uses it

    The tokenizer's output, a decoded image and the processor's output are
    only passed from one library call to the next. *)

Section Library.
Context {TextInputs RawImage ImageInputs : Type}.

Record TokenizerOptions : Type := mkTokenizerOptions {
  padding : bool;
  truncation : bool
}.

(** [tok(texts, options)]: a synchronous call, which may throw. *)
Definition Tokenizer : Type :=
  list string -> TokenizerOptions -> Exn + TextInputs.

(** [text_embeds.data] of the text model's output, element by element. *)
Record TextOutput : Type := mkTextOutput {
  text_embeds_data : list number
}.

Definition TextModel : Type := TextInputs -> Promise TextOutput.

(** [proc(image)], where [image] may still be [undefined]. *)
Definition Processor : Type := option RawImage -> Promise ImageInputs.

Record VisionOutput : Type := mkVisionOutput {
  image_embeds_data : list number
}.

Definition VisionModel : Type := ImageInputs -> Promise VisionOutput.

(** The module namespace of [@xenova/transformers]. *)
Record Transformers : Type := mkTransformers {
  AutoProcessor_from_pretrained : string -> Promise Processor;
  CLIPVisionModelWithProjection_from_pretrained : string -> Promise VisionModel;
  AutoTokenizer_from_pretrained : string -> Promise Tokenizer;
  CLIPTextModelWithProjection_from_pretrained : string -> Promise TextModel;
  RawImage_read : string -> Promise RawImage
}.

(** What is outside the handler: the dynamic [import], and which of two
    pending loads settles first (it decides the reason [Promise.all]
    rejects with when both loads fail).  A call to the outside is a function
    of its arguments: what it returns does not depend on when it is made.

    The two flags are one choice for the whole process.  In a running
    process the reason [Promise.all] reports for two failed loads also
    depends on the moment of the call (the first element's reason if both had
    already rejected, otherwise the reason of the load that rejects first), so
    two requests of one process can see different reasons.  A property of one
    request that holds in every world covers both outcomes; a property that
    compares requests is stated for loads that have one reason to report
    ([settle_order_free] below). *)
Record World : Type := mkWorld {
  import : string -> Promise Transformers;
  tokenizer_settles_first : bool;
  processor_settles_first : bool
}.

(** *** The request

    The parsed body is taken at its declared type [Body]: a field is a
    string or is absent. *)

Record Body : Type := mkBody {
  text : option string;
  image_url : option string;
  image_base64 : option string
}.

Record Request : Type := mkRequest {
  json : Promise Body                      (* [req.json()] *)
}.

(** *** Module-scope state *)

Inductive Loader : Type :=
| AutoProcessor
| CLIPVisionModelWithProjection
| AutoTokenizer
| CLIPTextModelWithProjection.

(** The calls that reach outside the process. *)
Inductive Event : Type :=
| Import (specifier : string)
| FromPretrained (loader : Loader) (model_id : string)
| Read (src : string).

Record Store : Type := mkStore {
  transformersPromise : option (Promise Transformers);
  processorPromise : option (Promise Processor);
  visionModelPromise : option (Promise VisionModel);
  tokenizerPromise : option (Promise Tokenizer);
  textModelPromise : option (Promise TextModel);
  trace : list Event                       (* oldest first *)
}.

(** The store of a fresh process. *)
Definition fresh : Store := mkStore None None None None None [].

Definition set_transformersPromise (p : Promise Transformers) (s : Store) : Store :=
  mkStore (Some p) (processorPromise s) (visionModelPromise s)
          (tokenizerPromise s) (textModelPromise s) (trace s).

Definition set_processorPromise (p : Promise Processor) (s : Store) : Store :=
  mkStore (transformersPromise s) (Some p) (visionModelPromise s)
          (tokenizerPromise s) (textModelPromise s) (trace s).

Definition set_visionModelPromise (p : Promise VisionModel) (s : Store) : Store :=
  mkStore (transformersPromise s) (processorPromise s) (Some p)
          (tokenizerPromise s) (textModelPromise s) (trace s).

Definition set_tokenizerPromise (p : Promise Tokenizer) (s : Store) : Store :=
  mkStore (transformersPromise s) (processorPromise s) (visionModelPromise s)
          (Some p) (textModelPromise s) (trace s).

Definition set_textModelPromise (p : Promise TextModel) (s : Store) : Store :=
  mkStore (transformersPromise s) (processorPromise s) (visionModelPromise s)
          (tokenizerPromise s) (Some p) (trace s).

Definition record (ev : Event) (s : Store) : Store :=
  mkStore (transformersPromise s) (processorPromise s) (visionModelPromise s)
          (tokenizerPromise s) (textModelPromise s) (trace s ++ [ev]).

Local Open Scope prog_scope.

(** Read a module-scope variable. *)
Definition read {T : Type} (var : Store -> T) : prog Store T :=
  act (fun s => (s, var s)).

(** Assign a module-scope variable. *)
Definition assign (set : Store -> Store) : prog Store unit :=
  act (fun s => (set s, tt)).

(** Make a call that reaches outside: it is recorded, and its promise is
    returned at once. *)
Definition start {T : Type} (ev : Event) (p : Promise T) : prog Store (Promise T) :=
  act (fun s => (record ev s, p)).

(** A synchronous call that may throw. *)
Definition call {T : Type} (r : Exn + T) : prog Store T :=
  match r with
  | inl e => Throw e
  | inr v => Ret v
  end.

(** [Promise.all([a, b])], where [a_first] tells which of the two settles
    first when both reject. *)
Definition Promise_all {A B : Type} (a_first : bool)
  (a : Promise A) (b : Promise B) : Promise (A * B) :=
  match a, b with
  | Resolved x, Resolved y => Resolved (x, y)
  | Rejected e, Resolved _ => Rejected e
  | Resolved _, Rejected e => Rejected e
  | Rejected e1, Rejected e2 => Rejected (if a_first then e1 else e2)
  end.

(** Two promises that cannot reject with different reasons: [Promise.all] of
    the two reports the same reason whichever settles first, and whether or
    not they had settled when it was called. *)
Definition one_reason {A B : Type} (a : Promise A) (b : Promise B) : Prop :=
  forall e1 e2, a = Rejected e1 -> b = Rejected e2 -> e1 = e2.

(** A module-scope variable of type [Promise<any> | null], as an element of
    the array given to [Promise.all]: [null] counts as a value. *)
Definition element {T : Type} (p : option (Promise T)) : Promise (option T) :=
  match p with
  | Some (Resolved v) => Resolved (Some v)
  | Some (Rejected e) => Rejected e
  | None => Resolved None
  end.

Definition model_id : string := "Xenova/clip-vit-base-patch16".

Definition specifier : string := "@xenova/transformers".

Section Handler.
Context (w : World).

(** Lines 11-18: this file's copy of [convertFileToBase64], which nothing
    calls. *)
Definition convertFileToBase64 (file : Describe.File)
  : prog Store Describe.Encoded :=
  bytes <- await (Describe.arrayBuffer file) ;;
  let base64 := Base64.encode bytes in
  let mimeType := or_else (Describe.file_type file) "image/jpeg" in
  Ret (Describe.mkEncoded base64 mimeType).

(** [if (!xPromise) { xPromise = f(...) }]: the test, the call and the
    assignment, with no suspension point between them. *)
Definition load_once {T : Type}
  (var : Store -> option (Promise T)) (set : Promise T -> Store -> Store)
  (ev : Event) (result : Promise T) : prog Store unit :=
  cur <- read var ;;
  match cur with
  | None =>
      p <- start ev result ;;
      assign (set p)
  | Some _ => Ret tt
  end.

(** The function returns [transformersPromise]; both callers destructure
    what they awaited, which throws on [null]. *)
Definition getTransformers : prog Store Transformers :=
  load_once transformersPromise set_transformersPromise
            (Import specifier) (import w specifier) ;;
  cur <- read transformersPromise ;;
  match cur with
  | Some p => await p
  | None => Await (Throw (TypeError "Cannot destructure property of null"))
  end.

Record Handles : Type := mkHandles {
  h_processorPromise : option (Promise Processor);
  h_visionModelPromise : option (Promise VisionModel);
  h_tokenizerPromise : option (Promise Tokenizer);
  h_textModelPromise : option (Promise TextModel)
}.

Definition initializeModels : prog Store Handles :=
  lib <- await_call getTransformers ;;
  load_once processorPromise set_processorPromise
            (FromPretrained AutoProcessor model_id)
            (AutoProcessor_from_pretrained lib model_id) ;;
  load_once visionModelPromise set_visionModelPromise
            (FromPretrained CLIPVisionModelWithProjection model_id)
            (CLIPVisionModelWithProjection_from_pretrained lib model_id) ;;
  load_once tokenizerPromise set_tokenizerPromise
            (FromPretrained AutoTokenizer model_id)
            (AutoTokenizer_from_pretrained lib model_id) ;;
  load_once textModelPromise set_textModelPromise
            (FromPretrained CLIPTextModelWithProjection model_id)
            (CLIPTextModelWithProjection_from_pretrained lib model_id) ;;
  s <- read (fun s => s) ;;
  Ret (mkHandles (processorPromise s) (visionModelPromise s)
                 (tokenizerPromise s) (textModelPromise s)).

(** The object [out]. *)
Record Out : Type := mkOut {
  text_embedding : option (list number);
  image_embedding : option (list number)
}.

(** [out], as [JSON.stringify] sees it: a property that was never assigned
    is not there. *)
Definition value_of_out (out : Out) : Value :=
  VObject
    (match text_embedding out with
     | Some v => [("text_embedding", VNumbers v)]
     | None => []
     end ++
     match image_embedding out with
     | Some v => [("image_embedding", VNumbers v)]
     | None => []
     end).

(** [err?.message ?? 'Failed to produce CLIP embeddings'] *)
Definition message_of (err : Exn) : string :=
  match message err with
  | Some m => m
  | None => "Failed to produce CLIP embeddings"
  end.

Definition missing_input : Response :=
  mkResponse (error_object "Provide text, image_url, or image_base64.")
             400 json_headers.

(** Lines 68-73. *)
Definition text_branch (h : Handles) (text : option string) (out : Out)
  : prog Store Out :=
  match text with
  | Some text =>                            (* typeof text === 'string' *)
      both <- await (Promise_all (tokenizer_settles_first w)
                                 (element (h_tokenizerPromise h))
                                 (element (h_textModelPromise h))) ;;
      let '(tok, textModel) := both in
      inputs <- match tok with
                | Some tok => call (tok [text] (mkTokenizerOptions true true))
                | None => Throw (TypeError "tok is not a function")
                end ;;
      result <- match textModel with
                | Some textModel => await (textModel inputs)
                | None => Throw (TypeError "textModel is not a function")
                end ;;
      Ret (mkOut (Some (text_embeds_data result)) (image_embedding out))
  | None => Ret out
  end.

(** Lines 76-93. *)
Definition image_branch (h : Handles) (image_url image_base64 : option string)
  (out : Out) : prog Store Out :=
  if truthy_opt image_url || truthy_opt image_base64 then
    lib <- await_call getTransformers ;;
    both <- await (Promise_all (processor_settles_first w)
                               (element (h_processorPromise h))
                               (element (h_visionModelPromise h))) ;;
    let '(proc, visionModel) := both in
    image <- match if_truthy image_url, if_truthy image_base64 with
             | Some image_url, _ =>
                 pending <- start (Read image_url) (RawImage_read lib image_url) ;;
                 image <- await pending ;;
                 Ret (Some image)
             | None, Some image_base64 =>
                 let dataUrl := String.append "data:image/jpeg;base64," image_base64 in
                 pending <- start (Read dataUrl) (RawImage_read lib dataUrl) ;;
                 image <- await pending ;;
                 Ret (Some image)
             | None, None => Ret None     (* [image] stays undefined *)
             end ;;
    image_inputs <- match proc with
                    | Some proc => await (proc image)
                    | None => Throw (TypeError "proc is not a function")
                    end ;;
    result <- match visionModel with
              | Some visionModel => await (visionModel image_inputs)
              | None => Throw (TypeError "visionModel is not a function")
              end ;;
    Ret (mkOut (text_embedding out) (Some (image_embeds_data result)))
  else Ret out.

(** Lines 95-105: the two ways the [try] block returns. *)
Definition respond (out : Out) : Response :=
  match text_embedding out, image_embedding out with
  | None, None => missing_input
  | _, _ => mkResponse (value_of_out out) 200 json_headers
  end.

(** Lines 106-111: the [catch] block. *)
Definition caught (err : Exn) : Response :=
  mkResponse (error_object (message_of err)) 500 json_headers.

Definition POST (req : Request) : prog Store Response :=
  try_catch
    (body <- await (json req) ;;
     let out := mkOut None None in
     h <- await_call initializeModels ;;
     out <- text_branch h (text body) out ;;
     out <- image_branch h (image_url body) (image_base64 body) out ;;
     Ret (respond out))
    (fun err => Ret (caught err)).

(** *** Several requests in one process *)

Definition Task : Type := prog Store Response.

(** One turn of the event loop, given to task [i]. *)
Definition turn (i : nat) (st : list Task * Store) : list Task * Store :=
  let '(pool, s) := st in
  match pool !! i with
  | Some p => let '(s', p') := resume p s in (<[i := p']> pool, s')
  | None => st
  end.

(** The turns of a schedule, in order. *)
Definition run_schedule (schedule : list nat) (st : list Task * Store)
  : list Task * Store :=
  fold_left (fun st i => turn i st) schedule st.

(** The requests of a process, each about to be handled. *)
Definition arrivals (reqs : list Request) : list Task := map POST reqs.

(** *** What the handler computes, read as values

    The same steps as [initializeModels], [text_branch] and [image_branch],
    without the store: the properties of [POST] are stated against them. *)

Definition and_then {A B : Type} (p : Promise A) (f : A -> Promise B) : Promise B :=
  match p with
  | Resolved v => f v
  | Rejected e => Rejected e
  end.

(** The promise [getTransformers] returns in store [s]. *)
Definition current_import (s : Store) : Promise Transformers :=
  match transformersPromise s with
  | Some p => p
  | None => import w specifier
  end.

Definition memo_import (s : Store) : Store :=
  match transformersPromise s with
  | None => set_transformersPromise (import w specifier) (record (Import specifier) s)
  | Some _ => s
  end.

Definition memo_processor (lib : Transformers) (s : Store) : Store :=
  match processorPromise s with
  | None =>
      set_processorPromise (AutoProcessor_from_pretrained lib model_id)
        (record (FromPretrained AutoProcessor model_id) s)
  | Some _ => s
  end.

Definition memo_visionModel (lib : Transformers) (s : Store) : Store :=
  match visionModelPromise s with
  | None =>
      set_visionModelPromise (CLIPVisionModelWithProjection_from_pretrained lib model_id)
        (record (FromPretrained CLIPVisionModelWithProjection model_id) s)
  | Some _ => s
  end.

Definition memo_tokenizer (lib : Transformers) (s : Store) : Store :=
  match tokenizerPromise s with
  | None =>
      set_tokenizerPromise (AutoTokenizer_from_pretrained lib model_id)
        (record (FromPretrained AutoTokenizer model_id) s)
  | Some _ => s
  end.

Definition memo_textModel (lib : Transformers) (s : Store) : Store :=
  match textModelPromise s with
  | None =>
      set_textModelPromise (CLIPTextModelWithProjection_from_pretrained lib model_id)
        (record (FromPretrained CLIPTextModelWithProjection model_id) s)
  | Some _ => s
  end.

(** The store [initializeModels] leaves when the import resolved to [lib]. *)
Definition init_store (lib : Transformers) (s : Store) : Store :=
  memo_textModel lib
    (memo_tokenizer lib
       (memo_visionModel lib
          (memo_processor lib (memo_import s)))).

Definition handles_of (s : Store) : Handles :=
  mkHandles (processorPromise s) (visionModelPromise s)
            (tokenizerPromise s) (textModelPromise s).

(** The text embedding, from the two loads and the text. *)
Definition text_embedding_via
  (tokenizer : Promise Tokenizer) (textModel : Promise TextModel)
  (text : string) : Promise (list number) :=
  and_then (Promise_all (tokenizer_settles_first w) tokenizer textModel)
    (fun both =>
       match fst both [text] (mkTokenizerOptions true true) with
       | inl e => Rejected e
       | inr inputs =>
           and_then (snd both inputs)
             (fun result => Resolved (text_embeds_data result))
       end).

Definition text_embedding_of (lib : Transformers) (text : string)
  : Promise (list number) :=
  text_embedding_via (AutoTokenizer_from_pretrained lib model_id)
                     (CLIPTextModelWithProjection_from_pretrained lib model_id)
                     text.

(** The image embedding, from the two loads and the string given to
    [RawImage.read]. *)
Definition image_embedding_via
  (processor : Promise Processor) (visionModel : Promise VisionModel)
  (lib : Transformers) (src : string) : Promise (list number) :=
  and_then (Promise_all (processor_settles_first w) processor visionModel)
    (fun both =>
       and_then (RawImage_read lib src)
         (fun image =>
            and_then (fst both (Some image))
              (fun image_inputs =>
                 and_then (snd both image_inputs)
                   (fun result => Resolved (image_embeds_data result))))).

Definition image_embedding_of (lib : Transformers) (src : string)
  : Promise (list number) :=
  image_embedding_via (AutoProcessor_from_pretrained lib model_id)
                      (CLIPVisionModelWithProjection_from_pretrained lib model_id)
                      lib src.

(** The string the image branch gives to [RawImage.read], if it runs. *)
Definition image_source (image_url image_base64 : option string) : option string :=
  match if_truthy image_url, if_truthy image_base64 with
  | Some url, _ => Some url
  | None, Some b64 => Some (String.append "data:image/jpeg;base64," b64)
  | None, None => None
  end.

(** The response to a body once the import resolved to [lib], from the
    four loads. *)
Definition answer_via
  (processor : Promise Processor) (visionModel : Promise VisionModel)
  (tokenizer : Promise Tokenizer) (textModel : Promise TextModel)
  (lib : Transformers) (body : Body) : Response :=
  let text_part :=
    match text body with
    | Some t =>
        and_then (text_embedding_via tokenizer textModel t)
                 (fun v => Resolved (Some v))
    | None => Resolved None
    end in
  let image_part :=
    match image_source (image_url body) (image_base64 body) with
    | Some src =>
        and_then (image_embedding_via processor visionModel lib src)
                 (fun v => Resolved (Some v))
    | None => Resolved None
    end in
  match text_part with
  | Rejected e => caught e
  | Resolved tv =>
      match image_part with
      | Rejected e => caught e
      | Resolved iv => respond (mkOut tv iv)
      end
  end.

Definition answer_of (lib : Transformers) (body : Body) : Response :=
  answer_via (AutoProcessor_from_pretrained lib model_id)
             (CLIPVisionModelWithProjection_from_pretrained lib model_id)
             (AutoTokenizer_from_pretrained lib model_id)
             (CLIPTextModelWithProjection_from_pretrained lib model_id)
             lib body.

(** What the text branch and the image branch contribute to [answer_of]. *)
Definition text_part (lib : Transformers) (text : option string)
  : Promise (option (list number)) :=
  match text with
  | Some t => and_then (text_embedding_of lib t) (fun v => Resolved (Some v))
  | None => Resolved None
  end.

Definition image_part (lib : Transformers) (image_url image_base64 : option string)
  : Promise (option (list number)) :=
  match image_source image_url image_base64 with
  | Some src => and_then (image_embedding_of lib src) (fun v => Resolved (Some v))
  | None => Resolved None
  end.

(** The response to a request in this world, whatever came before it. *)
Definition response_of (req : Request) : Response :=
  match json req with
  | Rejected e => caught e
  | Resolved body =>
      match import w specifier with
      | Rejected e => caught e
      | Resolved lib => answer_of lib body
      end
  end.

(** The four loads of [lib], as [initializeModels] returns them. *)
Definition handles_for (lib : Transformers) : Handles :=
  mkHandles (Some (AutoProcessor_from_pretrained lib model_id))
            (Some (CLIPVisionModelWithProjection_from_pretrained lib model_id))
            (Some (AutoTokenizer_from_pretrained lib model_id))
            (Some (CLIPTextModelWithProjection_from_pretrained lib model_id)).

(** A store whose assigned variables hold what this world's calls return:
    the stores a process can be in. *)
Definition consistent (s : Store) : Prop :=
  (forall p, transformersPromise s = Some p -> p = import w specifier)
  /\ (forall p, processorPromise s = Some p ->
        exists lib, import w specifier = Resolved lib
                    /\ p = AutoProcessor_from_pretrained lib model_id)
  /\ (forall p, visionModelPromise s = Some p ->
        exists lib, import w specifier = Resolved lib
                    /\ p = CLIPVisionModelWithProjection_from_pretrained lib model_id)
  /\ (forall p, tokenizerPromise s = Some p ->
        exists lib, import w specifier = Resolved lib
                    /\ p = AutoTokenizer_from_pretrained lib model_id)
  /\ (forall p, textModelPromise s = Some p ->
        exists lib, import w specifier = Resolved lib
                    /\ p = CLIPTextModelWithProjection_from_pretrained lib model_id).

(** A world in which neither [Promise.all] of the handler has two reasons
    to choose from: of the tokenizer and the text model, and of the processor
    and the vision model, at most one load fails, or both fail alike. *)
Definition settle_order_free : Prop :=
  forall lib, import w specifier = Resolved lib ->
    one_reason (AutoTokenizer_from_pretrained lib model_id)
               (CLIPTextModelWithProjection_from_pretrained lib model_id)
    /\ one_reason (AutoProcessor_from_pretrained lib model_id)
                  (CLIPVisionModelWithProjection_from_pretrained lib model_id).

End Handler.

(** *** Counting the loads in a trace *)

Definition is_import (ev : Event) : bool :=
  match ev with
  | Import _ => true
  | _ => false
  end.

Definition Loader_eqb (a b : Loader) : bool :=
  match a, b with
  | AutoProcessor, AutoProcessor => true
  | CLIPVisionModelWithProjection, CLIPVisionModelWithProjection => true
  | AutoTokenizer, AutoTokenizer => true
  | CLIPTextModelWithProjection, CLIPTextModelWithProjection => true
  | _, _ => false
  end.

Definition is_load (l : Loader) (ev : Event) : bool :=
  match ev with
  | FromPretrained l' _ => Loader_eqb l l'
  | _ => false
  end.

(** How many times the library import was started. *)
Definition imports (t : list Event) : nat := length (List.filter is_import t).

(** How many times loader [l] was asked to load. *)
Definition loads (l : Loader) (t : list Event) : nat :=
  length (List.filter (is_load l) t).

Definition is_read (ev : Event) : bool :=
  match ev with
  | Read _ => true
  | _ => false
  end.

(** The calls to [RawImage.read] in a trace, oldest first. *)
Definition reads (t : list Event) : list Event := List.filter is_read t.

Definition assigned {T : Type} (var : option T) : nat :=
  match var with
  | Some _ => 1
  | None => 0
  end.

(** Each variable is assigned exactly when its load was started, and then
    the load was started once. *)
Definition memoized (s : Store) : Prop :=
  imports (trace s) = assigned (transformersPromise s)
  /\ loads AutoProcessor (trace s) = assigned (processorPromise s)
  /\ loads CLIPVisionModelWithProjection (trace s) = assigned (visionModelPromise s)
  /\ loads AutoTokenizer (trace s) = assigned (tokenizerPromise s)
  /\ loads CLIPTextModelWithProjection (trace s) = assigned (textModelPromise s).

(** Every variable assigned in [s] has the same value in [s']. *)
Definition keeps (s s' : Store) : Prop :=
  (forall p, transformersPromise s = Some p -> transformersPromise s' = Some p)
  /\ (forall p, processorPromise s = Some p -> processorPromise s' = Some p)
  /\ (forall p, visionModelPromise s = Some p -> visionModelPromise s' = Some p)
  /\ (forall p, tokenizerPromise s = Some p -> tokenizerPromise s' = Some p)
  /\ (forall p, textModelPromise s = Some p -> textModelPromise s' = Some p).

(** What holds of the store between turns, in world [w]. *)
Definition quiescent (w : World) (s : Store) : Prop :=
  memoized s /\ consistent w s.

(** Every task of the pool keeps the discipline from its next turn on. *)
Definition all_pending (w : World) (pool : list Task) : Prop :=
  forall i p, pool !! i = Some p -> pending (quiescent w) keeps p.

End Library.

Arguments Tokenizer : clear implicits.
Arguments TextModel : clear implicits.
Arguments Processor : clear implicits.
Arguments VisionModel : clear implicits.
Arguments Transformers : clear implicits.
Arguments World : clear implicits.
Arguments Store : clear implicits.
Arguments Handles : clear implicits.
Arguments Request : clear implicits.

(** *** Two worlds to run the handler in *)

(** A library whose loads and models all succeed. *)
Definition working_library : Transformers unit unit unit :=
  mkTransformers
    (fun _ => Resolved (fun _ => Resolved tt))
    (fun _ => Resolved (fun _ => Resolved (mkVisionOutput [0.5%float; 0.25%float])))
    (fun _ => Resolved (fun _ _ => inr tt))
    (fun _ => Resolved (fun _ => Resolved (mkTextOutput [1%float; 2%float; 3%float])))
    (fun _ => Resolved tt).

Definition working_world : World unit unit unit :=
  mkWorld (fun _ => Resolved working_library) true true.

(** A deployment in which the package cannot be imported. *)
Definition broken_world : World unit unit unit :=
  mkWorld (fun _ => Rejected (Error "Cannot find package '@xenova/transformers'"))
          true true.

(** A library whose image decoding fails. *)
Definition blind_library : Transformers unit unit unit :=
  mkTransformers
    (AutoProcessor_from_pretrained working_library)
    (CLIPVisionModelWithProjection_from_pretrained working_library)
    (AutoTokenizer_from_pretrained working_library)
    (CLIPTextModelWithProjection_from_pretrained working_library)
    (fun _ => Rejected (Error "Unsupported image")).

Definition blind_world : World unit unit unit :=
  mkWorld (fun _ => Resolved blind_library) true true.

(** A library whose tokenizer cannot be loaded. *)
Definition speechless_library : Transformers unit unit unit :=
  mkTransformers
    (AutoProcessor_from_pretrained working_library)
    (CLIPVisionModelWithProjection_from_pretrained working_library)
    (fun _ => Rejected (Error "tokenizer.json not found"))
    (CLIPTextModelWithProjection_from_pretrained working_library)
    (RawImage_read working_library).

Definition speechless_world : World unit unit unit :=
  mkWorld (fun _ => Resolved speechless_library) true true.

(** The same deployment, with the loads settling in the other order. *)
Definition speechless_world' : World unit unit unit :=
  mkWorld (fun _ => Resolved speechless_library) false false.

(** A library that shows what it was given: an image is the string given to
    [RawImage.read], the processor passes it on, and the embedding tells a
    data URL (1) from any other source (0). *)
Definition tracing_library : Transformers unit string string :=
  mkTransformers
    (fun _ => Resolved (fun image =>
                          match image with
                          | Some src => Resolved src
                          | None => Rejected (TypeError "image is undefined")
                          end))
    (fun _ => Resolved (fun image_inputs =>
                          Resolved (mkVisionOutput
                                      [if String.prefix "data:" image_inputs
                                       then 1%float else 0%float])))
    (AutoTokenizer_from_pretrained working_library)
    (CLIPTextModelWithProjection_from_pretrained working_library)
    (fun src => Resolved src).

Definition tracing_world : World unit string string :=
  mkWorld (fun _ => Resolved tracing_library) true true.

(** A library neither of whose text loads succeeds, each for its own
    reason. *)
Definition mute_library : Transformers unit unit unit :=
  mkTransformers
    (AutoProcessor_from_pretrained working_library)
    (CLIPVisionModelWithProjection_from_pretrained working_library)
    (fun _ => Rejected (Error "tokenizer.json not found"))
    (fun _ => Rejected (Error "text_model.onnx not found"))
    (RawImage_read working_library).

End Embed.

(** * Properties *)

Ltac Zify.zify_post_hook ::= Z.to_euclidean_division_equations.

(** ** Running programs *)

Module ProgFacts.
Import JS.

Section Exec.
Context {St : Type}.

Lemma exec_bind {A B : Type} (p : prog St A) (f : A -> prog St B) (s : St) :
  exec (bind p f) s = then_exec f (exec p s).
Proof.
  revert s. induction p as [a|e|C m k IH|k IH]; intros s; cbn.
  - reflexivity.
  - reflexivity.
  - destruct (m s) as [s' b]. apply IH.
  - apply IH.
Qed.

Lemma exec_try_catch {A : Type} (p : prog St A) (h : Exn -> prog St A) (s : St) :
  exec (try_catch p h) s = else_exec h (exec p s).
Proof.
  revert s. induction p as [a|e|C m k IH|k IH]; intros s; cbn.
  - reflexivity.
  - reflexivity.
  - destruct (m s) as [s' b]. apply IH.
  - apply IH.
Qed.

(** Where a call suspends does not change what it computes. *)
Lemma exec_await_call {A : Type} (p : prog St A) (s : St) :
  exec (await_call p) s = exec p s.
Proof.
  unfold await_call. rewrite exec_try_catch, exec_bind.
  destruct (exec p s) as [s' [a|e]]; reflexivity.
Qed.

Lemma exec_await {A : Type} (p : Promise A) (s : St) :
  exec (await p) s = (s, p).
Proof. destruct p; reflexivity. Qed.

Lemma resume_next_turn {A : Type} (p : prog St A) (s : St) :
  resume p s = run_sync (next_turn p) s.
Proof. destruct p; reflexivity. Qed.

End Exec.

Section Turns.
Context {St : Type} (I : St -> Prop) (R : St -> St -> Prop).
Hypothesis R_refl : forall s, R s s.

Lemma wp_bind {A B : Type} (p : prog St A) (f : A -> prog St B)
  (Q : B -> St -> St -> Prop) (E : Exn -> St -> St -> Prop) (s0 s : St) :
  wp I R p (fun a s0 s => wp I R (f a) Q E s0 s) E s0 s ->
  wp I R (bind p f) Q E s0 s.
Proof.
  revert s0 s. induction p as [a|e|C m k IH|k IH]; intros s0 s; cbn.
  - trivial.
  - trivial.
  - apply IH.
  - intros [Hends Hnext]. split; [assumption|].
    intros s1 Hs1. apply IH, Hnext, Hs1.
Qed.

Lemma wp_try_catch {A : Type} (p : prog St A) (h : Exn -> prog St A)
  (Q : A -> St -> St -> Prop) (E : Exn -> St -> St -> Prop) (s0 s : St) :
  wp I R p Q (fun e s0 s => wp I R (h e) Q E s0 s) s0 s ->
  wp I R (try_catch p h) Q E s0 s.
Proof.
  revert s0 s. induction p as [a|e|C m k IH|k IH]; intros s0 s; cbn.
  - trivial.
  - trivial.
  - apply IH.
  - intros [Hends Hnext]. split; [assumption|].
    intros s1 Hs1. apply IH, Hnext, Hs1.
Qed.

Lemma ends_start (s : St) : I s -> ends I R s s.
Proof using R_refl. intros Hs. split; [assumption | apply R_refl]. Qed.

Lemma ok_Ret {A : Type} (P : A -> Prop) (a : A) : P a -> ok I R P (Ret a).
Proof. intros Ha Q E HQ HE s0 s Hs. cbn. now apply HQ. Qed.

Lemma ok_Throw {A : Type} (P : A -> Prop) (e : Exn) : ok I R P (Throw e).
Proof. intros Q E HQ HE s0 s Hs. cbn. now apply HE. Qed.

Lemma ok_bind {A B : Type} (P : A -> Prop) (P' : B -> Prop)
  (p : prog St A) (f : A -> prog St B) :
  ok I R P p -> (forall a, P a -> ok I R P' (f a)) -> ok I R P' (bind p f).
Proof.
  intros Hp Hf Q E HQ HE s0 s Hs. apply wp_bind.
  apply Hp; [|assumption|assumption].
  intros a s0' s' Ha Hs'. now apply (Hf a Ha).
Qed.

Lemma ok_try_catch {A : Type} (P P' : A -> Prop)
  (p : prog St A) (h : Exn -> prog St A) :
  ok I R P p -> (forall a, P a -> P' a) -> (forall e, ok I R P' (h e)) ->
  ok I R P' (try_catch p h).
Proof.
  intros Hp Himp Hh Q E HQ HE s0 s Hs. apply wp_try_catch.
  apply Hp; [| |assumption].
  - intros a s0' s' Ha Hs'. apply HQ; auto.
  - intros e s0' s' Hs'. now apply (Hh e).
Qed.

Lemma ok_Await {A : Type} (P : A -> Prop) (k : prog St A) :
  ok I R P k -> ok I R P (Await k).
Proof using R_refl.
  intros Hk Q E HQ HE s0 s Hs. cbn. split; [assumption|].
  intros s1 Hs1. apply Hk; auto using ends_start.
Qed.

Lemma ok_await {A : Type} (P : A -> Prop) (p : Promise A) :
  (forall v, p = Resolved v -> P v) -> ok I R P (await p).
Proof using R_refl.
  intros Hp. unfold await. apply ok_Await.
  destruct p as [v|e]; [apply ok_Ret; auto | apply ok_Throw].
Qed.

Lemma ok_await_call {A : Type} (P : A -> Prop) (p : prog St A) :
  ok I R P p -> ok I R P (await_call p).
Proof using R_refl.
  intros Hp. unfold await_call.
  apply ok_try_catch with (P := P); [|trivial|].
  - eapply ok_bind; [exact Hp|].
    intros a Ha. apply ok_Await, ok_Ret, Ha.
  - intros e. apply ok_Await, ok_Throw.
Qed.

(** A synchronous action that can end a turn well wherever it runs. *)
Lemma ok_act {B : Type} (P : B -> Prop) (m : St -> St * B) :
  (forall s0 s, ends I R s0 s -> ends I R s0 (fst (m s)) /\ P (snd (m s))) ->
  ok I R P (act m).
Proof.
  intros Hm Q E HQ HE s0 s Hs. cbn.
  destruct (Hm s0 s Hs) as [Hs' HP]. now apply HQ.
Qed.

Lemma ok_pending {A : Type} (P : A -> Prop) (p : prog St A) :
  ok I R P p -> pending I R p.
Proof using R_refl.
  intros Hp s Hs.
  assert (Hwp : wp I R p (fun _ => ends I R) (fun _ => ends I R) s s)
    by (apply Hp; auto using ends_start).
  destruct p; cbn in *; try assumption.
  now apply Hwp.
Qed.

(** A turn of a task that keeps the discipline ends well, and leaves a task
    that keeps it. *)
Lemma wp_run_sync {A : Type} (p : prog St A) (s0 s : St) :
  wp I R p (fun _ => ends I R) (fun _ => ends I R) s0 s ->
  ends I R s0 (fst (run_sync p s)) /\ pending I R (snd (run_sync p s)).
Proof using R_refl.
  revert s0 s. induction p as [a|e|C m k IH|k IH]; intros s0 s; cbn.
  - intros Hs. split; [assumption|]. intros s1 Hs1. cbn. now apply ends_start.
  - intros Hs. split; [assumption|]. intros s1 Hs1. cbn. now apply ends_start.
  - intros Hwp. destruct (m s) as [s' b]. cbn in Hwp. now apply IH.
  - intros [Hs Hnext]. split; [assumption|]. exact Hnext.
Qed.

(** Run to completion, a task that keeps the discipline leaves the
    invariant in place. *)
Lemma wp_exec {A : Type} (p : prog St A) (s0 s : St) :
  wp I R p (fun _ => ends I R) (fun _ => ends I R) s0 s ->
  I (fst (exec p s)).
Proof.
  revert s0 s. induction p as [a|e|C m k IH|k IH]; intros s0 s; cbn.
  - now intros [Hs _].
  - now intros [Hs _].
  - intros Hwp. destruct (m s) as [s' b]. cbn in Hwp. now apply (IH b s0).
  - intros [[Hs _] Hnext]. apply (IH s). now apply Hnext.
Qed.

Lemma pending_resume {A : Type} (p : prog St A) (s : St) :
  pending I R p -> I s ->
  ends I R s (fst (resume p s)) /\ pending I R (snd (resume p s)).
Proof using R_refl.
  intros Hp Hs. rewrite resume_next_turn. apply wp_run_sync, Hp, Hs.
Qed.

End Turns.
End ProgFacts.

(** ** Base64 *)

Module Base64Facts.
Import Base64.

Example encode_f : encode (bytes_of_string "f") = "Zg==".
Proof. reflexivity. Qed.

Example encode_fo : encode (bytes_of_string "fo") = "Zm8=".
Proof. reflexivity. Qed.

Example encode_foobar : encode (bytes_of_string "foobar") = "Zm9vYmFy".
Proof. reflexivity. Qed.

Example decode_fooba : decode "Zm9vYmE=" = Some (bytes_of_string "fooba").
Proof. reflexivity. Qed.

Lemma sextet_in (n : N) : (n < 64)%N -> In n sextets.
Proof.
  intros H. unfold sextets.
  rewrite <- (N2Nat.id n). apply in_map. apply in_seq. lia.
Qed.

Lemma index_of_char_of (n : N) :
  (n < 64)%N -> index_of (char_of n) = Some n.
Proof.
  intros H. apply sextet_in in H. revert n H.
  apply Stdlib.Lists.List.Forall_forall. unfold sextets. vm_compute.
  repeat constructor.
Qed.

Lemma char_of_not_pad (n : N) :
  (n < 64)%N -> Ascii.eqb (char_of n) pad = false.
Proof.
  intros H. apply sextet_in in H. revert n H.
  apply Stdlib.Lists.List.Forall_forall. unfold sextets. vm_compute.
  repeat constructor.
Qed.

Lemma of_N_to_N_eq (a : byte) (n : N) :
  n = Byte.to_N a -> Byte.of_N n = Some a.
Proof. intros ->. apply Byte.of_to_N. Qed.

Ltac sextet_step :=
  first
    [ rewrite index_of_char_of by lia
    | rewrite char_of_not_pad by lia
    | match goal with
      | |- context [Byte.of_N ?e] =>
          match goal with
          | a : byte |- _ => rewrite (of_N_to_N_eq a e) by lia
          end
      end ];
  cbn [mbind option_bind].

(** Decoding what [encode] produced gives the bytes back. *)
Lemma decode_encode_upto (n : nat) (bs : list byte) :
  length bs <= n -> decode (encode bs) = Some bs.
Proof.
  revert bs. induction n as [|n IH]; intros bs Hlen.
  - destruct bs; [reflexivity | simpl in Hlen; lia].
  - destruct bs as [|a [|b [|c rest]]]; [reflexivity | | | ].
    + pose proof (Byte.to_N_bounded a).
      cbn [encode decode]. repeat sextet_step.
      rewrite Ascii.eqb_refl. cbn. repeat sextet_step. reflexivity.
    + pose proof (Byte.to_N_bounded a). pose proof (Byte.to_N_bounded b).
      cbn [encode decode]. repeat sextet_step.
      rewrite Ascii.eqb_refl. cbn. repeat sextet_step. reflexivity.
    + pose proof (Byte.to_N_bounded a). pose proof (Byte.to_N_bounded b).
      pose proof (Byte.to_N_bounded c).
      cbn [encode decode]. repeat sextet_step.
      rewrite IH by (simpl in Hlen; lia). reflexivity.
Qed.

Lemma decode_encode (bs : list byte) : decode (encode bs) = Some bs.
Proof. apply (decode_encode_upto (length bs)). lia. Qed.

End Base64Facts.

(** ** The caption handler *)

Module DescribeSpec.
Import JS Describe.

Lemma truthy_false_iff (s : string) : truthy s = false <-> s = "".
Proof.
  unfold truthy. destruct (String.eqb_spec s ""); split; congruence.
Qed.

Lemma truthy_true_iff (s : string) : truthy s = true <-> s <> "".
Proof.
  unfold truthy. destruct (String.eqb_spec s ""); split; congruence.
Qed.

Lemma or_else_spec (a b : string) :
  or_else a b = if String.eqb a "" then b else a.
Proof.
  unfold or_else, truthy. now destruct (String.eqb a "").
Qed.

(** The handler always answers: whatever is thrown inside is caught. *)
Lemma POST_responds (w : World) (request : Request) (s : Store) :
  exists r, snd (exec (POST w request) s) = Resolved r.
Proof.
  unfold POST. destruct request as [[fd|e]]; cbn; [|eauto].
  destruct (get "image" fd) as [[f|str]|]; cbn; [| |eauto].
  - destruct (OPENAI_API_KEY s) as [key|]; cbn; [|eauto].
    destruct (truthy key); cbn; [|eauto].
    destruct (chat_completions_create w key _) as [resp|e]; cbn; [|eauto].
    destruct (first_content resp) as [c|]; cbn; [|eauto].
    destruct (truthy c); cbn; eauto.
  - destruct (truthy str); cbn; eauto.
Qed.

(** C2: a form without an [image] field is answered 400 with
    [{"error": "No image file provided"}], and the store is left as it was:
    no call to the chat-completion API is issued. *)
Theorem C2_missing_image_is_400
  (w : World) (fd : FormData) (s : Store) :
  get "image" fd = None ->
  exec (POST w (mkRequest (Resolved fd))) s =
    (s, Resolved
          (mkResponse (VObject [("error", VString "No image file provided")])
                      400
                      [("content-type", "application/json")])).
Proof.
  intros Hget. unfold POST. cbn. rewrite Hget. reflexivity.
Qed.

Lemma C2_missing_image_is_400_witness :
  exec (POST (mkWorld (fun _ _ => Rejected (Error "offline")))
             (mkRequest (Resolved [("caption", EntryString "a cat")])))
       (mkStore (Some "sk-test") [] [])
  = (mkStore (Some "sk-test") [] [],
     Resolved
       (mkResponse (VObject [("error", VString "No image file provided")])
                   400
                   [("content-type", "application/json")])).
Proof.
  apply C2_missing_image_is_400. reflexivity.
Defined.

(** C3: when the chat-completion API answers the handler's call with a
    completion whose first choice carries no content (no choice, no message,
    [null] or the empty string), the response is the 500 error response; and
    on no request at all is the response a 200 with an empty caption. *)
Theorem C3_empty_completion_is_500
  (w : World) (request : Request) (s : Store) :
  (forall fd f key completion,
      formData request = Resolved fd ->
      get "image" fd = Some (EntryFile f) ->
      OPENAI_API_KEY s = Some key ->
      truthy key = true ->
      chat_completions_create w key
        (caption_request (Base64.encode (file_bytes f))
                         (or_else (file_type f) "image/jpeg"))
        = Resolved completion ->
      truthy_opt (first_content completion) = false ->
      snd (exec (POST w request) s) =
        Resolved (mkResponse (VObject [("error", VString "Failed to process image")])
                             500
                             [("content-type", "application/json")]))
  /\ (forall r,
        snd (exec (POST w request) s) = Resolved r ->
        status r = 200 ->
        exists caption, body r = VString caption /\ caption <> "").
Proof.
  split.
  - intros fd f key completion Hfd Hget Hkey Htruthy Hcreate Hcontent.
    destruct request as [fdp]. cbn in Hfd. subst fdp.
    unfold POST. cbn. rewrite Hget. cbn. rewrite Hkey. cbn.
    rewrite Htruthy. cbn. rewrite Hcreate. cbn.
    rewrite Hcontent. cbn. reflexivity.
  - intros r Hr Hstatus.
    unfold POST in Hr. destruct request as [[fd|e]]; cbn in Hr;
      [|inversion Hr; subst; discriminate].
    destruct (get "image" fd) as [[f|str]|]; cbn in Hr;
      [| |inversion Hr; subst; discriminate].
    + destruct (OPENAI_API_KEY s) as [key|]; cbn in Hr;
        [|inversion Hr; subst; discriminate].
      destruct (truthy key); cbn in Hr; [|inversion Hr; subst; discriminate].
      destruct (chat_completions_create w key _) as [resp|e]; cbn in Hr;
        [|inversion Hr; subst; discriminate].
      destruct (first_content resp) as [c|]; cbn in Hr;
        [|inversion Hr; subst; discriminate].
      destruct (truthy c) eqn:Hc; cbn in Hr;
        [|inversion Hr; subst; discriminate].
      inversion Hr; subst. cbn. exists c. split; [reflexivity|].
      now apply truthy_true_iff.
    + destruct (truthy str); cbn in Hr; inversion Hr; subst; discriminate.
Qed.

Lemma C3_empty_completion_is_500_witness :
  snd (exec (POST (mkWorld (fun _ _ =>
                              Resolved (mkChatCompletion
                                          [mkChoice (Some (mkChoiceMessage (Some "")))])))
                  (mkRequest (Resolved [("image", EntryFile (mkFile [] "image/png"))])))
            (mkStore (Some "sk-test") [] []))
  = Resolved (mkResponse (VObject [("error", VString "Failed to process image")])
                         500
                         [("content-type", "application/json")]).
Proof.
  eapply (proj1 (C3_empty_completion_is_500 _ _ _)); reflexivity.
Defined.

(** C8: [convertFileToBase64] returns the base64 encoding of the file's
    bytes (a payload that decodes back to exactly those bytes) and the
    declared type, with [image/jpeg] in its place exactly when the declared
    type is empty; and the one call the handler issues upstream for that file
    carries the image as [data:<mimeType>;base64,<payload>]. *)
Theorem C8_file_becomes_data_url
  (w : World) (f : File) (s : Store) :
  let payload := Base64.encode (file_bytes f) in
  let mime := if String.eqb (file_type f) "" then "image/jpeg" else file_type f in
  exec (convertFileToBase64 (EntryFile f)) s = (s, Resolved (mkEncoded payload mime))
  /\ Base64.decode payload = Some (file_bytes f)
  /\ (forall fd key,
        get "image" fd = Some (EntryFile f) ->
        OPENAI_API_KEY s = Some key ->
        truthy key = true ->
        upstream_calls (fst (exec (POST w (mkRequest (Resolved fd))) s)) =
          upstream_calls s ++
          [mkChatRequest "gpt-5-nano"
             [mkChatMessage "user"
                [TextPart prompt;
                 ImageUrlPart ("data:" ++ mime ++ ";base64," ++ payload)]]]).
Proof.
  intros payload mime. subst payload mime.
  rewrite <- or_else_spec.
  split; [reflexivity|].
  split; [apply Base64Facts.decode_encode|].
  intros fd key Hget Hkey Htruthy.
  unfold POST. cbn. rewrite Hget. cbn. rewrite Hkey. cbn. rewrite Htruthy. cbn.
  destruct (chat_completions_create w key _) as [resp|e]; cbn; [|reflexivity].
  destruct (first_content resp) as [c|]; cbn; [|reflexivity].
  destruct (truthy c); reflexivity.
Qed.

Lemma C8_file_becomes_data_url_witness :
  upstream_calls
    (fst (exec (POST (mkWorld (fun _ _ => Rejected (Error "offline")))
                     (mkRequest
                        (Resolved [("image",
                                    EntryFile (mkFile (Base64.bytes_of_string "foobar") ""))])))
               (mkStore (Some "sk-test") [] [])))
  = [mkChatRequest "gpt-5-nano"
       [mkChatMessage "user"
          [TextPart prompt; ImageUrlPart "data:image/jpeg;base64,Zm9vYmFy"]]].
Proof.
  apply (proj2 (proj2 (C8_file_becomes_data_url
                         (mkWorld (fun _ _ => Rejected (Error "offline")))
                         (mkFile (Base64.bytes_of_string "foobar") "")
                         (mkStore (Some "sk-test") [] [])))
           [("image", EntryFile (mkFile (Base64.bytes_of_string "foobar") ""))]
           "sk-test");
    reflexivity.
Defined.

End DescribeSpec.

(** ** The embedding handler *)

Module EmbedSpec.
Import JS Embed ProgFacts.

Section OneRequest.
Context {TextInputs RawImage ImageInputs : Type}.
Context (w : World TextInputs RawImage ImageInputs).

Local Abbreviation Store := (Store TextInputs RawImage ImageInputs).
Local Abbreviation Transformers := (Transformers TextInputs RawImage ImageInputs).
Local Abbreviation Handles := (Handles TextInputs RawImage ImageInputs).

(** *** What each block of the handler does to the store *)

Lemma initializeModels_exec (s : Store) :
  exec (initializeModels w) s =
  match current_import w s with
  | Resolved lib => (init_store w lib s, Resolved (handles_of (init_store w lib s)))
  | Rejected e => (memo_import w s, Rejected e)
  end.
Proof.
  unfold initializeModels. rewrite exec_bind, exec_await_call.
  unfold current_import, init_store, memo_import.
  destruct s as [tp pp vp kp mp t]. cbn.
  destruct tp as [tp|]; cbn.
  - destruct tp as [lib|e]; cbn; [|reflexivity].
    destruct pp, vp, kp, mp; reflexivity.
  - destruct (import w specifier) as [lib|e]; cbn; [|reflexivity].
    destruct pp, vp, kp, mp; reflexivity.
Qed.

Lemma getTransformers_exec (p : Promise Transformers) (s : Store) :
  transformersPromise s = Some p ->
  exec (getTransformers w) s = (s, p).
Proof.
  intros Hp. unfold getTransformers. cbn. rewrite Hp. cbn. rewrite Hp.
  apply exec_await.
Qed.

Lemma text_branch_exec (h : Handles) (tokenizer : Promise _) (textModel : Promise _)
  (t : string) (out : Out) (s : Store) :
  h_tokenizerPromise h = Some tokenizer ->
  h_textModelPromise h = Some textModel ->
  exec (text_branch w h (Some t) out) s =
    (s, and_then (text_embedding_via w tokenizer textModel t)
          (fun v => Resolved (mkOut (Some v) (image_embedding out)))).
Proof.
  intros Hk Hm. unfold text_branch, text_embedding_via.
  rewrite Hk, Hm. rewrite exec_bind, exec_await.
  destruct tokenizer as [tok|e1], textModel as [model|e2]; cbn;
    try reflexivity.
  destruct (tok [t] _) as [e|inputs]; cbn; [reflexivity|].
  destruct (model inputs) as [result|e]; reflexivity.
Qed.

Lemma image_branch_skip (h : Handles) (url b64 : option string)
  (out : Out) (s : Store) :
  image_source url b64 = None ->
  exec (image_branch w h url b64 out) s = (s, Resolved out).
Proof.
  unfold image_source, image_branch, if_truthy, truthy_opt.
  destruct url as [u|], b64 as [b|]; cbn;
    repeat match goal with
           | |- context [truthy ?x] => destruct (truthy x); cbn
           end;
    intros; congruence.
Qed.

Lemma image_branch_exec (h : Handles) (processor : Promise _) (visionModel : Promise _)
  (lib : Transformers) (url b64 : option string) (src : string)
  (out : Out) (s : Store) :
  transformersPromise s = Some (Resolved lib) ->
  h_processorPromise h = Some processor ->
  h_visionModelPromise h = Some visionModel ->
  image_source url b64 = Some src ->
  exec (image_branch w h url b64 out) s =
    (match Promise_all (processor_settles_first w) processor visionModel with
     | Resolved _ => record (Read src) s
     | Rejected _ => s
     end,
     and_then (image_embedding_via w processor visionModel lib src)
       (fun v => Resolved (mkOut (text_embedding out) (Some v)))).
Proof.
  intros Hlib Hp Hv Hsrc.
  assert (Htest : truthy_opt url || truthy_opt b64 = true).
  { revert Hsrc. unfold image_source, if_truthy, truthy_opt.
    destruct url as [u|], b64 as [b|]; cbn;
      repeat match goal with
             | |- context [truthy ?x] => destruct (truthy x); cbn
             end;
      intros; congruence. }
  unfold image_branch, image_embedding_via. rewrite Htest, Hp, Hv.
  rewrite exec_bind, exec_await_call, (getTransformers_exec _ _ Hlib).
  cbn [then_exec].
  destruct processor as [proc|e1], visionModel as [model|e2]; cbn;
    try reflexivity.
  unfold image_source in Hsrc.
  destruct (if_truthy url) as [u|]; [|destruct (if_truthy b64) as [b|]];
    inversion Hsrc; subst; cbn;
    (destruct (RawImage_read lib _) as [image|e]; cbn; [|reflexivity];
     destruct (proc (Some image)) as [inputs|e]; cbn; [|reflexivity];
     destruct (model inputs) as [result|e]; reflexivity).
Qed.

(** *** The store after initialisation *)

Lemma init_store_import (lib : Transformers) (s : Store) :
  current_import w s = Resolved lib ->
  transformersPromise (init_store w lib s) = Some (Resolved lib).
Proof.
  unfold current_import, init_store, memo_import.
  destruct s as [tp pp vp kp mp t]. cbn.
  destruct tp as [tp|]; cbn; intros ->; destruct pp, vp, kp, mp; reflexivity.
Qed.

Lemma init_store_handles (lib : Transformers) (s : Store) :
  exists processor visionModel tokenizer textModel,
    handles_of (init_store w lib s) =
      mkHandles (Some processor) (Some visionModel)
                (Some tokenizer) (Some textModel).
Proof.
  unfold handles_of, init_store, memo_import.
  destruct s as [tp pp vp kp mp t]. cbn.
  destruct tp, pp, vp, kp, mp; cbn; eauto.
Qed.

Lemma consistent_fresh : consistent w fresh.
Proof. repeat split; intros p Hp; discriminate Hp. Qed.

Lemma consistent_current_import (s : Store) :
  consistent w s -> current_import w s = import w specifier.
Proof.
  intros [Ht _]. unfold current_import.
  destruct (transformersPromise s) as [p|]; [now apply Ht | reflexivity].
Qed.

Lemma consistent_handles (lib : Transformers) (s : Store) :
  consistent w s ->
  import w specifier = Resolved lib ->
  handles_of (init_store w lib s) =
    mkHandles (Some (AutoProcessor_from_pretrained lib model_id))
              (Some (CLIPVisionModelWithProjection_from_pretrained lib model_id))
              (Some (AutoTokenizer_from_pretrained lib model_id))
              (Some (CLIPTextModelWithProjection_from_pretrained lib model_id)).
Proof.
  intros (Ht & Hp & Hv & Hk & Hm) Hlib.
  assert (Hpp : forall p, processorPromise s = Some p ->
                          p = AutoProcessor_from_pretrained lib model_id).
  { intros p Hs. destruct (Hp p Hs) as (l & Hl & ->). congruence. }
  assert (Hvp : forall p, visionModelPromise s = Some p ->
                          p = CLIPVisionModelWithProjection_from_pretrained lib model_id).
  { intros p Hs. destruct (Hv p Hs) as (l & Hl & ->). congruence. }
  assert (Hkp : forall p, tokenizerPromise s = Some p ->
                          p = AutoTokenizer_from_pretrained lib model_id).
  { intros p Hs. destruct (Hk p Hs) as (l & Hl & ->). congruence. }
  assert (Hmp : forall p, textModelPromise s = Some p ->
                          p = CLIPTextModelWithProjection_from_pretrained lib model_id).
  { intros p Hs. destruct (Hm p Hs) as (l & Hl & ->). congruence. }
  clear Ht Hp Hv Hk Hm.
  unfold handles_of, init_store, memo_import.
  destruct s as [tp pp vp kp mp t]. cbn in *.
  destruct pp as [pp|]; [rewrite (Hpp pp eq_refl)|];
    (destruct vp as [vp|]; [rewrite (Hvp vp eq_refl)|]);
    (destruct kp as [kp|]; [rewrite (Hkp kp eq_refl)|]);
    (destruct mp as [mp|]; [rewrite (Hmp mp eq_refl)|]);
    destruct tp; reflexivity.
Qed.

(** *** When a branch succeeds *)

Lemma text_embedding_of_Resolved (lib : Transformers)
  (tok : Tokenizer TextInputs) (model : TextModel TextInputs)
  (t : string) (inputs : TextInputs) (result : TextOutput) :
  AutoTokenizer_from_pretrained lib model_id = Resolved tok ->
  CLIPTextModelWithProjection_from_pretrained lib model_id = Resolved model ->
  tok [t] (mkTokenizerOptions true true) = inr inputs ->
  model inputs = Resolved result ->
  text_embedding_of w lib t = Resolved (text_embeds_data result).
Proof.
  intros Htok Hmodel Hinputs Hresult.
  unfold text_embedding_of, text_embedding_via.
  rewrite Htok, Hmodel. cbn. rewrite Hinputs, Hresult. reflexivity.
Qed.

Lemma image_embedding_of_Resolved (lib : Transformers)
  (proc : Processor RawImage ImageInputs) (model : VisionModel ImageInputs)
  (src : string) (image : RawImage) (inputs : ImageInputs)
  (result : VisionOutput) :
  AutoProcessor_from_pretrained lib model_id = Resolved proc ->
  CLIPVisionModelWithProjection_from_pretrained lib model_id = Resolved model ->
  RawImage_read lib src = Resolved image ->
  proc (Some image) = Resolved inputs ->
  model inputs = Resolved result ->
  image_embedding_of w lib src = Resolved (image_embeds_data result).
Proof.
  intros Hproc Hmodel Himage Hinputs Hresult.
  unfold image_embedding_of, image_embedding_via.
  rewrite Hproc, Hmodel. cbn. rewrite Himage. cbn.
  rewrite Hinputs. cbn. rewrite Hresult. reflexivity.
Qed.

(** The image branch throws exactly when a load, the read, the processor
    or the vision model fails. *)
Lemma image_embedding_of_Rejected (lib : Transformers) (src : string) (e : Exn) :
  image_embedding_of w lib src = Rejected e <->
  Promise_all (processor_settles_first w)
    (AutoProcessor_from_pretrained lib model_id)
    (CLIPVisionModelWithProjection_from_pretrained lib model_id) = Rejected e
  \/ exists proc model,
       AutoProcessor_from_pretrained lib model_id = Resolved proc
       /\ CLIPVisionModelWithProjection_from_pretrained lib model_id = Resolved model
       /\ (RawImage_read lib src = Rejected e
           \/ exists image,
                RawImage_read lib src = Resolved image
                /\ (proc (Some image) = Rejected e
                    \/ exists inputs,
                         proc (Some image) = Resolved inputs
                         /\ model inputs = Rejected e)).
Proof.
  unfold image_embedding_of, image_embedding_via. split.
  - destruct (AutoProcessor_from_pretrained lib model_id) as [proc|e1],
             (CLIPVisionModelWithProjection_from_pretrained lib model_id)
               as [model|e2];
      cbn; try (intros H; left; now inversion H).
    intros H. right. exists proc, model.
    split; [reflexivity|]. split; [reflexivity|].
    destruct (RawImage_read lib src) as [image|e3]; cbn in H; [|left; now inversion H].
    right. exists image. split; [reflexivity|].
    destruct (proc (Some image)) as [inputs|e4]; cbn in H; [|left; now inversion H].
    right. exists inputs. split; [reflexivity|].
    destruct (model inputs) as [result|e5]; cbn in H; [discriminate | now inversion H].
  - intros [H | (proc & model & Hp & Hm & Hrest)].
    + rewrite H. reflexivity.
    + rewrite Hp, Hm. cbn.
      destruct Hrest as [H | (image & Hi & Hrest)];
        [rewrite H; reflexivity | rewrite Hi; cbn].
      destruct Hrest as [H | (inputs & Hin & H)];
        [rewrite H; reflexivity | rewrite Hin; cbn].
      rewrite H. reflexivity.
Qed.

(** *** One request, block by block *)

Lemma POST_exec_rejected (body : Body) (s : Store) (e : Exn) :
  current_import w s = Rejected e ->
  exec (POST w (mkRequest (Resolved body))) s =
    (memo_import w s, Resolved (caught e)).
Proof.
  intros Himp. unfold POST.
  rewrite exec_try_catch, exec_bind, exec_await. cbn [then_exec json].
  rewrite exec_bind, exec_await_call, initializeModels_exec, Himp.
  reflexivity.
Qed.

Lemma POST_exec_resolved (body : Body) (s : Store) (lib : Transformers) :
  current_import w s = Resolved lib ->
  exec (POST w (mkRequest (Resolved body))) s =
    let s1 := init_store w lib s in
    let h := handles_of s1 in
    match exec (text_branch w h (text body) (mkOut None None)) s1 with
    | (s2, Rejected e) => (s2, Resolved (caught e))
    | (s2, Resolved out) =>
        match exec (image_branch w h (image_url body) (image_base64 body) out) s2 with
        | (s3, Rejected e) => (s3, Resolved (caught e))
        | (s3, Resolved out) => (s3, Resolved (respond out))
        end
    end.
Proof.
  intros Himp. unfold POST.
  rewrite exec_try_catch, exec_bind, exec_await. cbn [then_exec json].
  rewrite exec_bind, exec_await_call, initializeModels_exec, Himp.
  cbn [then_exec]. rewrite exec_bind.
  destruct (exec (text_branch _ _ _ _) _) as [s2 [out|e]]; cbn; [|reflexivity].
  rewrite exec_bind.
  destruct (exec (image_branch _ _ _ _ _) _) as [s3 [out'|e]]; reflexivity.
Qed.

(** Once the import resolved, the request is decided by the value-level
    reading of the handler, at the loads the variables hold; the store is the
    initialised one, with at most the image read recorded after it. *)
Lemma POST_exec_answer (body : Body) (s : Store) (lib : Transformers) :
  current_import w s = Resolved lib ->
  exists s' processor visionModel tokenizer textModel,
    handles_of (init_store w lib s) =
      mkHandles (Some processor) (Some visionModel)
                (Some tokenizer) (Some textModel)
    /\ exec (POST w (mkRequest (Resolved body))) s =
         (s', Resolved (answer_via w processor visionModel tokenizer textModel
                                   lib body))
    /\ (s' = init_store w lib s
        \/ exists src,
             image_source (image_url body) (image_base64 body) = Some src
             /\ s' = record (Read src) (init_store w lib s)).
Proof.
  intros Himp.
  rewrite (POST_exec_resolved _ _ _ Himp). cbv zeta.
  destruct (init_store_handles lib s) as (pp & vp & kp & mp & Hh).
  pose proof (init_store_import lib s Himp) as Ht.
  set (s1 := init_store w lib s) in *. rewrite Hh.
  assert (Himage : forall out,
    exists s3,
      exec (image_branch w (mkHandles (Some pp) (Some vp) (Some kp) (Some mp))
              (image_url body) (image_base64 body) out) s1 =
      (s3,
       match image_source (image_url body) (image_base64 body) with
       | Some src =>
           and_then (image_embedding_via w pp vp lib src)
             (fun v => Resolved (mkOut (text_embedding out) (Some v)))
       | None => Resolved out
       end)
      /\ (s3 = s1
          \/ exists src,
               image_source (image_url body) (image_base64 body) = Some src
               /\ s3 = record (Read src) s1)).
  { intros out.
    destruct (image_source (image_url body) (image_base64 body)) as [src|] eqn:Hsrc.
    - eexists. split; [eapply image_branch_exec; eauto|].
      destruct (Promise_all _ pp vp); eauto.
    - eexists. split; [apply image_branch_skip; assumption | now left]. }
  destruct (text body) as [t|] eqn:Htext.
  - erewrite text_branch_exec by reflexivity.
    cbn [h_tokenizerPromise h_textModelPromise].
    destruct (text_embedding_via w kp mp t) as [tv|e] eqn:Htv;
      cbn [and_then image_embedding].
    + destruct (Himage (mkOut (Some tv) None)) as (s3 & Hs3 & Hstore).
      rewrite Hs3.
      exists s3, pp, vp, kp, mp. split; [reflexivity|]. split; [|exact Hstore].
      unfold answer_via. rewrite Htext, Htv. cbn [and_then].
      destruct (image_source _ _) as [src|]; [|reflexivity].
      destruct (image_embedding_via _ _ _ _ _) as [iv|e]; reflexivity.
    + exists s1, pp, vp, kp, mp. split; [reflexivity|]. split; [|now left].
      unfold answer_via. rewrite Htext, Htv. reflexivity.
  - cbn [text_branch exec].
    destruct (Himage (mkOut None None)) as (s3 & Hs3 & Hstore). rewrite Hs3.
    exists s3, pp, vp, kp, mp. split; [reflexivity|]. split; [|exact Hstore].
    unfold answer_via. rewrite Htext.
    destruct (image_source _ _) as [src|]; [|reflexivity].
    destruct (image_embedding_via _ _ _ _ _) as [iv|e]; reflexivity.
Qed.

(** In a store of this world the loads are the world's. *)
Lemma POST_exec_consistent (body : Body) (s : Store) (lib : Transformers) :
  consistent w s ->
  import w specifier = Resolved lib ->
  snd (exec (POST w (mkRequest (Resolved body))) s)
    = Resolved (answer_of w lib body).
Proof.
  intros Hcons Hlib.
  assert (Himp : current_import w s = Resolved lib)
    by (rewrite consistent_current_import; assumption).
  destruct (POST_exec_answer body s lib Himp)
    as (s' & pp & vp & kp & mp & Hh & -> & _).
  rewrite (consistent_handles lib s Hcons Hlib) in Hh.
  inversion Hh; subst. reflexivity.
Qed.

Lemma POST_exec_blocks (body : Body) (s : Store) :
  exec (POST w (mkRequest (Resolved body))) s =
    match exec (initializeModels w) s with
    | (s1, Rejected e) => (s1, Resolved (caught e))
    | (s1, Resolved h) =>
        match exec (text_branch w h (text body) (mkOut None None)) s1 with
        | (s2, Rejected e) => (s2, Resolved (caught e))
        | (s2, Resolved out) =>
            match exec (image_branch w h (image_url body) (image_base64 body) out) s2 with
            | (s3, Rejected e) => (s3, Resolved (caught e))
            | (s3, Resolved out) => (s3, Resolved (respond out))
            end
        end
    end.
Proof.
  unfold POST.
  rewrite exec_try_catch, exec_bind, exec_await. cbn [then_exec json].
  rewrite exec_bind, exec_await_call.
  destruct (exec (initializeModels w) s) as [s1 [h|e]]; cbn; [|reflexivity].
  rewrite exec_bind.
  destruct (exec (text_branch _ _ _ _) _) as [s2 [out|e]]; cbn; [|reflexivity].
  rewrite exec_bind.
  destruct (exec (image_branch _ _ _ _ _) _) as [s3 [out'|e]]; reflexivity.
Qed.

(** With a usable [image_url], the image branch does not look at
    [image_base64]. *)
Lemma image_branch_url_first (h : Handles) (u : string) (b64 : option string)
  (out : Out) :
  truthy u = true ->
  image_branch w h (Some u) b64 out = image_branch w h (Some u) None out.
Proof.
  intros Hu. unfold image_branch, if_truthy, truthy_opt. rewrite Hu.
  reflexivity.
Qed.

(** Without a text and without a usable image field, nothing runs after
    the initialisation. *)
Lemma POST_exec_no_input (body : Body) (s : Store) (lib : Transformers) :
  current_import w s = Resolved lib ->
  text body = None ->
  image_source (image_url body) (image_base64 body) = None ->
  exec (POST w (mkRequest (Resolved body))) s =
    (init_store w lib s, Resolved missing_input).
Proof.
  intros Himp Htext Hsrc.
  rewrite (POST_exec_resolved _ _ _ Himp). cbv zeta.
  rewrite Htext. cbn [text_branch exec].
  rewrite image_branch_skip by assumption. reflexivity.
Qed.

Lemma reads_app (t t' : list Event) : reads (t ++ t') = reads t ++ reads t'.
Proof. apply List.filter_app. Qed.

(** With the library and the two image loads there, and a text branch that
    does not throw, a usable image field is read: the store is the
    initialised one with that read recorded, and the response is built from
    what the read returned. *)
Lemma POST_exec_image (body : Body) (s : Store) (lib : Transformers)
  (proc : Processor RawImage ImageInputs) (visionModel : VisionModel ImageInputs)
  (tv : option (list number)) (src : string) :
  consistent w s ->
  import w specifier = Resolved lib ->
  AutoProcessor_from_pretrained lib model_id = Resolved proc ->
  CLIPVisionModelWithProjection_from_pretrained lib model_id = Resolved visionModel ->
  text_part w lib (text body) = Resolved tv ->
  image_source (image_url body) (image_base64 body) = Some src ->
  exec (POST w (mkRequest (Resolved body))) s =
    (record (Read src) (init_store w lib s),
     Resolved
       match
         and_then (RawImage_read lib src)
           (fun image =>
              and_then (proc (Some image))
                (fun image_inputs =>
                   and_then (visionModel image_inputs)
                     (fun result => Resolved (image_embeds_data result))))
       with
       | Resolved v => mkResponse (value_of_out (mkOut tv (Some v))) 200 json_headers
       | Rejected e => caught e
       end).
Proof.
  intros Hcons Hlib Hproc Hvm Htext Hsrc.
  assert (Himp : current_import w s = Resolved lib)
    by (rewrite consistent_current_import; assumption).
  rewrite (POST_exec_resolved _ _ _ Himp). cbv zeta.
  rewrite (consistent_handles lib s Hcons Hlib).
  pose proof (init_store_import lib s Himp) as Ht.
  rewrite Hproc, Hvm.
  assert (Hstep : forall out, text_embedding out = tv ->
    match
      exec (image_branch w
              (mkHandles (Some (Resolved proc)) (Some (Resolved visionModel))
                 (Some (AutoTokenizer_from_pretrained lib model_id))
                 (Some (CLIPTextModelWithProjection_from_pretrained lib model_id)))
              (image_url body) (image_base64 body) out) (init_store w lib s)
    with
    | (s3, Rejected e) => (s3, Resolved (caught e))
    | (s3, Resolved out) => (s3, Resolved (respond out))
    end =
    (record (Read src) (init_store w lib s),
     Resolved
       match
         and_then (RawImage_read lib src)
           (fun image =>
              and_then (proc (Some image))
                (fun image_inputs =>
                   and_then (visionModel image_inputs)
                     (fun result => Resolved (image_embeds_data result))))
       with
       | Resolved v => mkResponse (value_of_out (mkOut tv (Some v))) 200 json_headers
       | Rejected e => caught e
       end)).
  { intros out Hout.
    erewrite (image_branch_exec _ (Resolved proc) (Resolved visionModel) lib
                _ _ src out _ Ht) by (reflexivity || exact Hsrc).
    unfold image_embedding_via. cbn [Promise_all and_then fst snd].
    destruct (RawImage_read lib src) as [image|e]; cbn [and_then]; [|reflexivity].
    destruct (proc (Some image)) as [inputs|e]; cbn [and_then]; [|reflexivity].
    destruct (visionModel inputs) as [result|e]; cbn [and_then]; [|reflexivity].
    rewrite Hout. unfold respond. cbn [text_embedding image_embedding].
    now destruct tv. }
  unfold text_part, text_embedding_of in Htext.
  destruct (text body) as [t|].
  - erewrite text_branch_exec by reflexivity.
    destruct (text_embedding_via w _ _ t) as [v|e]; cbn [and_then] in *;
      [|discriminate].
    inversion Htext; subst tv. now apply Hstep.
  - inversion Htext; subst tv. cbn [text_branch exec]. now apply Hstep.
Qed.

Lemma reads_memo_import (s : Store) :
  reads (trace (memo_import w s)) = reads (trace s).
Proof.
  unfold memo_import. destruct (transformersPromise s); [reflexivity|].
  cbn. rewrite reads_app. cbn. apply app_nil_r.
Qed.

Lemma reads_init_store (lib : Transformers) (s : Store) :
  reads (trace (init_store w lib s)) = reads (trace s).
Proof.
  unfold init_store, memo_import.
  destruct s as [tp pp vp kp mp t]. cbn.
  destruct tp, pp, vp, kp, mp; cbn;
    rewrite <- ?app_assoc, ?reads_app; cbn; rewrite ?app_nil_r; reflexivity.
Qed.

End OneRequest.

(** C4: a body with only a [text] string, in a process of a world where
    the tokenizer and the text model are loaded and their calls on that text
    succeed with a non-empty vector, is answered 200 with a body whose only
    property is [text_embedding], that vector; [image_embedding] is absent. *)
Theorem C4_text_only_is_200
  {TextInputs RawImage ImageInputs : Type}
  (w : World TextInputs RawImage ImageInputs)
  (s : Store TextInputs RawImage ImageInputs)
  (lib : Transformers TextInputs RawImage ImageInputs)
  (tok : Tokenizer TextInputs) (model : TextModel TextInputs)
  (t : string) (inputs : TextInputs) (result : TextOutput) :
  consistent w s ->
  import w specifier = Resolved lib ->
  AutoTokenizer_from_pretrained lib model_id = Resolved tok ->
  CLIPTextModelWithProjection_from_pretrained lib model_id = Resolved model ->
  tok [t] (mkTokenizerOptions true true) = inr inputs ->
  model inputs = Resolved result ->
  text_embeds_data result <> [] ->
  exists r,
    snd (exec (POST w (mkRequest (Resolved (mkBody (Some t) None None)))) s)
      = Resolved r
    /\ status r = 200
    /\ body r = VObject [("text_embedding", VNumbers (text_embeds_data result))]
    /\ field "image_embedding" (body r) = None.
Proof.
  intros Hcons Hlib Htok Hmodel Hinputs Hresult Hv.
  pose proof (text_embedding_of_Resolved w lib tok model t inputs result
                Htok Hmodel Hinputs Hresult) as Htext.
  rewrite (POST_exec_consistent w _ s lib Hcons Hlib).
  unfold answer_of, answer_via. unfold text_embedding_of in Htext.
  cbn [text image_url image_base64 image_source if_truthy].
  rewrite Htext. eexists. split; [reflexivity|].
  repeat split.
Qed.

Lemma C4_text_only_is_200_witness :
  exists r,
    snd (exec (POST working_world
                 (mkRequest (Resolved (mkBody (Some "a cat") None None)))) fresh)
      = Resolved r
    /\ status r = 200
    /\ body r = VObject [("text_embedding", VNumbers [1%float; 2%float; 3%float])]
    /\ field "image_embedding" (body r) = None.
Proof.
  apply (C4_text_only_is_200 working_world fresh working_library
           (fun _ _ => inr tt)
           (fun _ => Resolved (mkTextOutput [1%float; 2%float; 3%float]))
           "a cat" tt (mkTextOutput [1%float; 2%float; 3%float])).
  - apply consistent_fresh.
  - reflexivity.
  - reflexivity.
  - reflexivity.
  - reflexivity.
  - reflexivity.
  - discriminate.
Defined.

(** C5: a body with a [text] string and an [image_base64] string, in a
    process of a world where both branches succeed (the loads resolved, the
    image branch ran and read its image, and each model call resolved with a
    non-empty vector), is answered 200 with a body holding both vectors,
    [text_embedding] and [image_embedding]. *)
Theorem C5_text_and_image_is_200
  {TextInputs RawImage ImageInputs : Type}
  (w : World TextInputs RawImage ImageInputs)
  (s : Store TextInputs RawImage ImageInputs)
  (lib : Transformers TextInputs RawImage ImageInputs)
  (tok : Tokenizer TextInputs) (textModel : TextModel TextInputs)
  (proc : Processor RawImage ImageInputs) (visionModel : VisionModel ImageInputs)
  (t b64 src : string) (url : option string)
  (inputs : TextInputs) (text_result : TextOutput)
  (image : RawImage) (image_inputs : ImageInputs) (image_result : VisionOutput) :
  consistent w s ->
  import w specifier = Resolved lib ->
  AutoTokenizer_from_pretrained lib model_id = Resolved tok ->
  CLIPTextModelWithProjection_from_pretrained lib model_id = Resolved textModel ->
  tok [t] (mkTokenizerOptions true true) = inr inputs ->
  textModel inputs = Resolved text_result ->
  text_embeds_data text_result <> [] ->
  image_source url (Some b64) = Some src ->
  AutoProcessor_from_pretrained lib model_id = Resolved proc ->
  CLIPVisionModelWithProjection_from_pretrained lib model_id = Resolved visionModel ->
  RawImage_read lib src = Resolved image ->
  proc (Some image) = Resolved image_inputs ->
  visionModel image_inputs = Resolved image_result ->
  image_embeds_data image_result <> [] ->
  exists r,
    snd (exec (POST w (mkRequest (Resolved (mkBody (Some t) url (Some b64))))) s)
      = Resolved r
    /\ status r = 200
    /\ body r = VObject [("text_embedding", VNumbers (text_embeds_data text_result));
                         ("image_embedding", VNumbers (image_embeds_data image_result))]
    /\ text_embeds_data text_result <> []
    /\ image_embeds_data image_result <> [].
Proof.
  intros Hcons Hlib Htok Htm Hinputs Htr Htv Hsrc Hproc Hvm Himg Hii Hir Hiv.
  pose proof (text_embedding_of_Resolved w lib tok textModel t inputs text_result
                Htok Htm Hinputs Htr) as Htext.
  pose proof (image_embedding_of_Resolved w lib proc visionModel src image
                image_inputs image_result Hproc Hvm Himg Hii Hir) as Himage.
  rewrite (POST_exec_consistent w _ s lib Hcons Hlib).
  unfold answer_of, answer_via.
  unfold text_embedding_of in Htext. unfold image_embedding_of in Himage.
  cbn [text image_url image_base64].
  rewrite Htext, Hsrc, Himage. eexists. split; [reflexivity|].
  repeat split; assumption.
Qed.

Lemma C5_text_and_image_is_200_witness :
  exists r,
    snd (exec (POST working_world
                 (mkRequest (Resolved (mkBody (Some "a cat") None (Some "AAAA")))))
              fresh)
      = Resolved r
    /\ status r = 200
    /\ body r = VObject [("text_embedding", VNumbers [1%float; 2%float; 3%float]);
                         ("image_embedding", VNumbers [0.5%float; 0.25%float])]
    /\ [1%float; 2%float; 3%float] <> [] /\ [0.5%float; 0.25%float] <> [].
Proof.
  apply (C5_text_and_image_is_200 working_world fresh working_library
           (fun _ _ => inr tt)
           (fun _ => Resolved (mkTextOutput [1%float; 2%float; 3%float]))
           (fun _ => Resolved tt)
           (fun _ => Resolved (mkVisionOutput [0.5%float; 0.25%float]))
           "a cat" "AAAA" "data:image/jpeg;base64,AAAA" None
           tt (mkTextOutput [1%float; 2%float; 3%float])
           tt tt (mkVisionOutput [0.5%float; 0.25%float])).
  - apply consistent_fresh.
  - reflexivity.
  - reflexivity.
  - reflexivity.
  - reflexivity.
  - reflexivity.
  - discriminate.
  - reflexivity.
  - reflexivity.
  - reflexivity.
  - reflexivity.
  - reflexivity.
  - reflexivity.
  - discriminate.
Defined.

(** C6: when the text branch computed its embedding and the image branch
    that runs after it throws, the response is the single 500 error response
    built from the thrown error, with no [text_embedding] in it; and no 200
    response ever leaves out the embedding of a branch that ran: it has
    [text_embedding] whenever [text] is a string and [image_embedding]
    whenever an image field is usable. *)
Theorem C6_no_partial_results
  {TextInputs RawImage ImageInputs : Type}
  (w : World TextInputs RawImage ImageInputs)
  (s : Store TextInputs RawImage ImageInputs)
  (request : Body) :
  (forall lib t tv src e,
      consistent w s ->
      import w specifier = Resolved lib ->
      text request = Some t ->
      text_embedding_of w lib t = Resolved tv ->
      image_source (image_url request) (image_base64 request) = Some src ->
      image_embedding_of w lib src = Rejected e ->
      exists r,
        snd (exec (POST w (mkRequest (Resolved request))) s) = Resolved r
        /\ status r = 500
        /\ body r = VObject [("error", VString (message_of e))]
        /\ field "text_embedding" (body r) = None)
  /\ (forall r,
        snd (exec (POST w (mkRequest (Resolved request))) s) = Resolved r ->
        status r = 200 ->
        (text request <> None -> field "text_embedding" (body r) <> None)
        /\ (image_source (image_url request) (image_base64 request) <> None ->
            field "image_embedding" (body r) <> None)).
Proof.
  split.
  - intros lib t tv src e Hcons Hlib Htext Htv Hsrc Himage.
    rewrite (POST_exec_consistent w _ s lib Hcons Hlib).
    unfold answer_of, answer_via.
    unfold text_embedding_of in Htv. unfold image_embedding_of in Himage.
    rewrite Htext, Htv, Hsrc, Himage. eexists. split; [reflexivity|].
    repeat split.
  - intros r Hr Hstatus.
    destruct (current_import w s) as [lib|e] eqn:Himp.
    + destruct (POST_exec_answer w request s lib Himp)
        as (s' & pp & vp & kp & mp & _ & Hexec & _).
      rewrite Hexec in Hr. cbn [snd] in Hr. inversion Hr as [Hr']. clear Hr.
      subst r. revert Hstatus. unfold answer_via.
      destruct (text request) as [t|];
        [destruct (text_embedding_via w kp mp t) as [tv|e]|]; cbn [and_then];
        try (cbn; discriminate);
        (destruct (image_source _ _) as [src|];
         [destruct (image_embedding_via w pp vp lib src) as [iv|e]|];
         cbn [and_then]; try (cbn; discriminate); cbn;
         intros Hstatus; split; intros H; congruence).
    + rewrite (POST_exec_rejected w request s e Himp) in Hr.
      inversion Hr; subst. discriminate.
Qed.

Lemma C6_no_partial_results_witness :
  exists r,
    snd (exec (POST blind_world
                 (mkRequest (Resolved (mkBody (Some "a cat") None (Some "AAAA")))))
              fresh)
      = Resolved r
    /\ status r = 500
    /\ body r = VObject [("error", VString "Unsupported image")]
    /\ field "text_embedding" (body r) = None.
Proof.
  apply (proj1 (C6_no_partial_results blind_world fresh
                  (mkBody (Some "a cat") None (Some "AAAA")))
           blind_library "a cat" [1%float; 2%float; 3%float]
           "data:image/jpeg;base64,AAAA" (Error "Unsupported image")).
  - apply consistent_fresh.
  - reflexivity.
  - reflexivity.
  - reflexivity.
  - reflexivity.
  - reflexivity.
Defined.

(** C1, as stated, fails where the package cannot be imported: the empty
    body is then answered 500 with the import error, not 400. *)
Lemma C1_import_failure_counterexample :
  snd (exec (POST broken_world (mkRequest (Resolved (mkBody None None None))))
            fresh)
  = Resolved
      (mkResponse
         (VObject [("error", VString "Cannot find package '@xenova/transformers'")])
         500
         [("content-type", "application/json")])
  /\ snd (exec (POST broken_world (mkRequest (Resolved (mkBody None None None))))
              fresh)
     <> Resolved
          (mkResponse
             (VObject [("error", VString "Provide text, image_url, or image_base64.")])
             400
             [("content-type", "application/json")]).
Proof.
  split; [reflexivity|]. cbn. discriminate.
Qed.

(** C1, amended: a body with none of the three fields is decided after the
    initialisation.  When the library import resolves, the answer is 400
    with [{"error": "Provide text, image_url, or image_base64."}], and by
    then the import and the four loads have been started and memoized; when
    the import rejects, the answer is 500 with the message of that error. *)
Theorem C1_empty_body_after_initialisation
  {TextInputs RawImage ImageInputs : Type}
  (w : World TextInputs RawImage ImageInputs)
  (s : Store TextInputs RawImage ImageInputs) :
  consistent w s ->
  match import w specifier with
  | Resolved lib =>
      exists s',
        exec (POST w (mkRequest (Resolved (mkBody None None None)))) s =
          (s',
           Resolved
             (mkResponse
                (VObject [("error", VString "Provide text, image_url, or image_base64.")])
                400
                [("content-type", "application/json")]))
        /\ transformersPromise s' = Some (Resolved lib)
        /\ processorPromise s' = Some (AutoProcessor_from_pretrained lib model_id)
        /\ visionModelPromise s' =
             Some (CLIPVisionModelWithProjection_from_pretrained lib model_id)
        /\ tokenizerPromise s' = Some (AutoTokenizer_from_pretrained lib model_id)
        /\ textModelPromise s' =
             Some (CLIPTextModelWithProjection_from_pretrained lib model_id)
  | Rejected e =>
      snd (exec (POST w (mkRequest (Resolved (mkBody None None None)))) s) =
        Resolved
          (mkResponse (VObject [("error", VString (message_of e))])
                      500
                      [("content-type", "application/json")])
  end.
Proof.
  intros Hcons.
  pose proof (consistent_current_import w s Hcons) as Himp.
  destruct (import w specifier) as [lib|e] eqn:Hlib.
  - exists (init_store w lib s).
    split; [now apply POST_exec_no_input|].
    split; [now apply init_store_import|].
    pose proof (consistent_handles w lib s Hcons Hlib) as Hh.
    unfold handles_of in Hh. inversion Hh. repeat split; reflexivity.
  - now rewrite (POST_exec_rejected w _ s e Himp).
Qed.

Lemma C1_empty_body_after_initialisation_witness :
  exists s',
    exec (POST working_world (mkRequest (Resolved (mkBody None None None)))) fresh =
      (s',
       Resolved
         (mkResponse
            (VObject [("error", VString "Provide text, image_url, or image_base64.")])
            400
            [("content-type", "application/json")]))
    /\ transformersPromise s' = Some (Resolved working_library)
    /\ processorPromise s' =
         Some (AutoProcessor_from_pretrained working_library model_id)
    /\ visionModelPromise s' =
         Some (CLIPVisionModelWithProjection_from_pretrained working_library model_id)
    /\ tokenizerPromise s' =
         Some (AutoTokenizer_from_pretrained working_library model_id)
    /\ textModelPromise s' =
         Some (CLIPTextModelWithProjection_from_pretrained working_library model_id).
Proof.
  exact (C1_empty_body_after_initialisation working_world fresh
           (consistent_fresh working_world)).
Defined.

(** C9, as stated, fails in the same place: with the package missing, a
    body whose only field is an empty [image_url] is answered 500. *)
Lemma C9_import_failure_counterexample :
  snd (exec (POST broken_world (mkRequest (Resolved (mkBody None (Some "") None))))
            fresh)
  = Resolved
      (mkResponse
         (VObject [("error", VString "Cannot find package '@xenova/transformers'")])
         500
         [("content-type", "application/json")])
  /\ snd (exec (POST broken_world (mkRequest (Resolved (mkBody None (Some "") None))))
              fresh)
     <> Resolved
          (mkResponse
             (VObject [("error", VString "Provide text, image_url, or image_base64.")])
             400
             [("content-type", "application/json")]).
Proof.
  split; [reflexivity|]. cbn. discriminate.
Qed.

(** C9, amended: a body without [text] whose [image_url] or [image_base64]
    is the empty string, the other one being absent or empty too, is handled
    exactly as the body without any field (same response, same store): the
    image branch is skipped and [RawImage.read] is not called.  So it is
    answered 400 with the missing-input error when the library import
    resolves, and 500 with the import error when it rejects. *)
Theorem C9_empty_image_field_is_skipped
  {TextInputs RawImage ImageInputs : Type}
  (w : World TextInputs RawImage ImageInputs)
  (s : Store TextInputs RawImage ImageInputs)
  (url b64 : option string) :
  consistent w s ->
  url = Some "" \/ b64 = Some "" ->
  truthy_opt url = false ->
  truthy_opt b64 = false ->
  exec (POST w (mkRequest (Resolved (mkBody None url b64)))) s
    = exec (POST w (mkRequest (Resolved (mkBody None None None)))) s
  /\ reads (trace (fst (exec (POST w (mkRequest (Resolved (mkBody None url b64)))) s)))
     = reads (trace s)
  /\ match import w specifier with
     | Resolved _ =>
         snd (exec (POST w (mkRequest (Resolved (mkBody None url b64)))) s) =
           Resolved
             (mkResponse
                (VObject [("error", VString "Provide text, image_url, or image_base64.")])
                400
                [("content-type", "application/json")])
     | Rejected e =>
         snd (exec (POST w (mkRequest (Resolved (mkBody None url b64)))) s) =
           Resolved
             (mkResponse (VObject [("error", VString (message_of e))])
                         500
                         [("content-type", "application/json")])
     end.
Proof.
  intros Hcons _ Hurl Hb64.
  assert (Hsrc : image_source url b64 = None).
  { unfold image_source, if_truthy. unfold truthy_opt in Hurl, Hb64.
    destruct url as [u|], b64 as [b|];
      try rewrite Hurl; try rewrite Hb64; reflexivity. }
  pose proof (consistent_current_import w s Hcons) as Himp.
  destruct (import w specifier) as [lib|e] eqn:Hlib.
  - rewrite (POST_exec_no_input w (mkBody None url b64) s lib Himp eq_refl Hsrc).
    rewrite (POST_exec_no_input w (mkBody None None None) s lib Himp eq_refl eq_refl).
    split; [reflexivity|]. split; [apply reads_init_store | reflexivity].
  - rewrite !(POST_exec_rejected w _ s e Himp).
    split; [reflexivity|]. split; [apply reads_memo_import | reflexivity].
Qed.

Lemma C9_empty_image_field_is_skipped_witness :
  exec (POST working_world (mkRequest (Resolved (mkBody None (Some "") (Some ""))))) fresh
    = exec (POST working_world (mkRequest (Resolved (mkBody None None None)))) fresh
  /\ reads (trace (fst (exec (POST working_world
                                (mkRequest (Resolved (mkBody None (Some "") (Some "")))))
                             fresh)))
     = []
  /\ snd (exec (POST working_world
                  (mkRequest (Resolved (mkBody None (Some "") (Some ""))))) fresh) =
       Resolved
         (mkResponse
            (VObject [("error", VString "Provide text, image_url, or image_base64.")])
            400
            [("content-type", "application/json")]).
Proof.
  apply (C9_empty_image_field_is_skipped working_world fresh (Some "") (Some "")).
  - apply consistent_fresh.
  - now left.
  - reflexivity.
  - reflexivity.
Defined.

(** C10: when [image_url] and [image_base64] are both non-empty, the image
    is read from [image_url] and [image_base64] is ignored.  The request is
    handled exactly as if [image_base64] were absent (same response, same
    store), and the only call to [RawImage.read] it can add is the one on
    [image_url].  That call is made: in a process of a world where the
    library and the two image loads are there, with a text branch that does
    not throw, the request leaves the initialised store with exactly one read
    recorded, the one of [image_url], and its response is built from what
    [RawImage.read(image_url)] returned (200 with that embedding, or the 500
    of the step that failed). *)
Theorem C10_image_url_takes_precedence
  {TextInputs RawImage ImageInputs : Type}
  (w : World TextInputs RawImage ImageInputs)
  (s : Store TextInputs RawImage ImageInputs)
  (t : option string) (u b64 : string) :
  truthy u = true ->
  truthy b64 = true ->
  exec (POST w (mkRequest (Resolved (mkBody t (Some u) (Some b64))))) s
    = exec (POST w (mkRequest (Resolved (mkBody t (Some u) None)))) s
  /\ image_source (Some u) (Some b64) = Some u
  /\ (reads (trace (fst (exec (POST w (mkRequest
                                         (Resolved (mkBody t (Some u) (Some b64))))) s)))
        = reads (trace s)
      \/ reads (trace (fst (exec (POST w (mkRequest
                                            (Resolved (mkBody t (Some u) (Some b64))))) s)))
        = reads (trace s) ++ [Read u])
  /\ (forall (lib : Transformers TextInputs RawImage ImageInputs)
             (proc : Processor RawImage ImageInputs)
             (visionModel : VisionModel ImageInputs)
             (tv : option (list number)),
        consistent w s ->
        import w specifier = Resolved lib ->
        AutoProcessor_from_pretrained lib model_id = Resolved proc ->
        CLIPVisionModelWithProjection_from_pretrained lib model_id
          = Resolved visionModel ->
        text_part w lib t = Resolved tv ->
        exec (POST w (mkRequest (Resolved (mkBody t (Some u) (Some b64))))) s
          = (record (Read u) (init_store w lib s),
             Resolved
               match
                 and_then (RawImage_read lib u)
                   (fun image =>
                      and_then (proc (Some image))
                        (fun image_inputs =>
                           and_then (visionModel image_inputs)
                             (fun result => Resolved (image_embeds_data result))))
               with
               | Resolved v =>
                   mkResponse (value_of_out (mkOut tv (Some v))) 200 json_headers
               | Rejected e => caught e
               end)
        /\ reads (trace (fst (exec (POST w (mkRequest
                                              (Resolved (mkBody t (Some u) (Some b64))))) s)))
           = reads (trace s) ++ [Read u]).
Proof.
  intros Hu Hb.
  assert (Hsrc : image_source (Some u) (Some b64) = Some u)
    by (unfold image_source, if_truthy; now rewrite Hu).
  split; [|split; [exact Hsrc|split]].
  - rewrite !POST_exec_blocks. cbn [text image_url image_base64].
    destruct (exec (initializeModels w) s) as [s1 [h|e]]; [|reflexivity].
    destruct (exec (text_branch _ _ _ _) _) as [s2 [out|e]]; [|reflexivity].
    now rewrite image_branch_url_first.
  - destruct (current_import w s) as [lib|e] eqn:Himp.
    + destruct (POST_exec_answer w (mkBody t (Some u) (Some b64)) s lib Himp)
        as (s' & pp & vp & kp & mp & _ & Hexec & Hstore).
      rewrite Hexec. cbn [fst image_url image_base64] in *.
      destruct Hstore as [->|(src & Hsrc' & ->)].
      * left. apply reads_init_store.
      * right. rewrite Hsrc in Hsrc'. inversion Hsrc'; subst src.
        cbn [record trace]. rewrite reads_app, reads_init_store. reflexivity.
    + rewrite (POST_exec_rejected w _ s e Himp). left. apply reads_memo_import.
  - intros lib proc visionModel tv Hcons Hlib Hproc Hvm Htext.
    rewrite (POST_exec_image w (mkBody t (Some u) (Some b64)) s lib proc
               visionModel tv u Hcons Hlib Hproc Hvm Htext Hsrc).
    split; [reflexivity|].
    cbn [fst record trace]. rewrite reads_app, reads_init_store. reflexivity.
Qed.

Lemma C10_image_url_takes_precedence_witness :
  exec (POST tracing_world
          (mkRequest (Resolved (mkBody None (Some "https://example.org/cat.png")
                                       (Some "AAAA"))))) fresh
    = exec (POST tracing_world
              (mkRequest (Resolved (mkBody None (Some "https://example.org/cat.png")
                                           None)))) fresh
  /\ exec (POST tracing_world
             (mkRequest (Resolved (mkBody None (Some "https://example.org/cat.png")
                                          (Some "AAAA"))))) fresh
     = (record (Read "https://example.org/cat.png")
          (init_store tracing_world tracing_library fresh),
        Resolved (mkResponse (VObject [("image_embedding", VNumbers [0%float])])
                             200 [("content-type", "application/json")]))
  /\ reads (trace (fst (exec (POST tracing_world
                                (mkRequest
                                   (Resolved (mkBody None
                                                (Some "https://example.org/cat.png")
                                                (Some "AAAA"))))) fresh)))
     = [Read "https://example.org/cat.png"].
Proof.
  pose proof (C10_image_url_takes_precedence tracing_world fresh None
                "https://example.org/cat.png" "AAAA" eq_refl eq_refl)
    as (Hsame & _ & _ & Hread).
  split; [exact Hsame|].
  exact (Hread tracing_library
           (fun image => match image with
                         | Some src => Resolved src
                         | None => Rejected (TypeError "image is undefined")
                         end)
           (fun image_inputs =>
              Resolved (mkVisionOutput
                          [if String.prefix "data:" image_inputs
                           then 1%float else 0%float]))
           None (consistent_fresh tracing_world) eq_refl eq_refl eq_refl eq_refl).
Defined.

(** *** Several requests, interleaved *)

Section Interleaving.
Context {TextInputs RawImage ImageInputs : Type}.
Context (w : World TextInputs RawImage ImageInputs).

Local Abbreviation Store := (Store TextInputs RawImage ImageInputs).
Local Abbreviation Transformers := (Transformers TextInputs RawImage ImageInputs).
Local Abbreviation Handles := (Handles TextInputs RawImage ImageInputs).
Local Abbreviation good := (ok (quiescent w) keeps).
Local Abbreviation any := (fun _ => True).

Lemma keeps_refl (s : Store) : keeps s s.
Proof. repeat split; auto. Qed.

Lemma keeps_trans (s1 s2 s3 : Store) : keeps s1 s2 -> keeps s2 s3 -> keeps s1 s3.
Proof.
  intros (H1 & H2 & H3 & H4 & H5) (K1 & K2 & K3 & K4 & K5).
  repeat split; auto.
Qed.

Lemma imports_app (t t' : list Event) :
  imports (t ++ t') = imports t + imports t'.
Proof. unfold imports. now rewrite List.filter_app, length_app. Qed.

Lemma loads_app (l : Loader) (t t' : list Event) :
  loads l (t ++ t') = loads l t + loads l t'.
Proof. unfold loads. now rewrite List.filter_app, length_app. Qed.

(** Unfold the invariant on explicit stores and compare the counts. *)
Ltac store_facts :=
  unfold ends, quiescent, memoized, consistent, keeps,
         set_transformersPromise, set_processorPromise, set_visionModelPromise,
         set_tokenizerPromise, set_textModelPromise, record in *;
  cbn [transformersPromise processorPromise visionModelPromise
       tokenizerPromise textModelPromise trace] in *;
  rewrite ?imports_app, ?loads_app in *;
  cbn [imports loads List.filter is_import is_load Loader_eqb length assigned] in *.

Ltac store_crush :=
  store_facts;
  repeat match goal with
         | H : _ /\ _ |- _ => destruct H
         end;
  repeat split; intros;
  repeat match goal with
         | K : forall p, ?X = Some p -> _, H : ?X = Some _ |- _ =>
             specialize (K _ H)
         | H : Some _ = Some _ |- _ => inversion H; subst; clear H
         end;
  try lia; try congruence; eauto.

Lemma ends_record_Read (src : string) (s0 s : Store) :
  ends (quiescent w) keeps s0 s ->
  ends (quiescent w) keeps s0 (record (Read src) s).
Proof. intros Hs. store_crush. Qed.

Lemma good_load_import :
  good any (load_once transformersPromise set_transformersPromise
              (Import specifier) (import w specifier)).
Proof.
  intros Q E HQ HE s0 s Hs. unfold load_once. cbn.
  destruct (transformersPromise s) as [p|] eqn:Hcur; cbn.
  - now apply HQ.
  - apply HQ; [trivial|]. store_facts. rewrite Hcur in *. store_crush.
Qed.

Lemma good_load_processor (lib : Transformers) :
  import w specifier = Resolved lib ->
  good any (load_once processorPromise set_processorPromise
              (FromPretrained AutoProcessor model_id)
              (AutoProcessor_from_pretrained lib model_id)).
Proof.
  intros Hlib Q E HQ HE s0 s Hs. unfold load_once. cbn.
  destruct (processorPromise s) as [p|] eqn:Hcur; cbn.
  - now apply HQ.
  - apply HQ; [trivial|]. store_facts. rewrite Hcur in *. store_crush.
Qed.

Lemma good_load_visionModel (lib : Transformers) :
  import w specifier = Resolved lib ->
  good any (load_once visionModelPromise set_visionModelPromise
              (FromPretrained CLIPVisionModelWithProjection model_id)
              (CLIPVisionModelWithProjection_from_pretrained lib model_id)).
Proof.
  intros Hlib Q E HQ HE s0 s Hs. unfold load_once. cbn.
  destruct (visionModelPromise s) as [p|] eqn:Hcur; cbn.
  - now apply HQ.
  - apply HQ; [trivial|]. store_facts. rewrite Hcur in *. store_crush.
Qed.

Lemma good_load_tokenizer (lib : Transformers) :
  import w specifier = Resolved lib ->
  good any (load_once tokenizerPromise set_tokenizerPromise
              (FromPretrained AutoTokenizer model_id)
              (AutoTokenizer_from_pretrained lib model_id)).
Proof.
  intros Hlib Q E HQ HE s0 s Hs. unfold load_once. cbn.
  destruct (tokenizerPromise s) as [p|] eqn:Hcur; cbn.
  - now apply HQ.
  - apply HQ; [trivial|]. store_facts. rewrite Hcur in *. store_crush.
Qed.

Lemma good_load_textModel (lib : Transformers) :
  import w specifier = Resolved lib ->
  good any (load_once textModelPromise set_textModelPromise
              (FromPretrained CLIPTextModelWithProjection model_id)
              (CLIPTextModelWithProjection_from_pretrained lib model_id)).
Proof.
  intros Hlib Q E HQ HE s0 s Hs. unfold load_once. cbn.
  destruct (textModelPromise s) as [p|] eqn:Hcur; cbn.
  - now apply HQ.
  - apply HQ; [trivial|]. store_facts. rewrite Hcur in *. store_crush.
Qed.

Lemma good_read {T : Type} (var : Store -> T) : good any (read var).
Proof. apply ok_act. intros s0 s Hs. split; [assumption|trivial]. Qed.

Lemma good_start_Read {T : Type} (src : string) (p : Promise T) :
  good any (start (Read src) p).
Proof.
  apply ok_act. intros s0 s Hs. split; [|trivial].
  now apply ends_record_Read.
Qed.

Lemma good_call {T : Type} (r : Exn + T) : good any (call r).
Proof. destruct r; [apply ok_Throw | now apply ok_Ret]. Qed.

Lemma good_await_any {T : Type} (p : Promise T) : good any (await p).
Proof. apply ok_await; [apply keeps_refl | trivial]. Qed.

(** What [getTransformers] returns is what this world's import resolved
    to. *)
Lemma good_getTransformers :
  good (fun lib => import w specifier = Resolved lib) (getTransformers w).
Proof.
  unfold getTransformers.
  eapply ok_bind; [apply good_load_import|]. intros _ _.
  eapply ok_bind with (P := fun cur => forall p, cur = Some p -> p = import w specifier).
  - apply ok_act. intros s0 s Hs. split; [assumption|].
    destruct Hs as [[_ [Ht _]] _]. exact Ht.
  - intros [p|] Hcur.
    + apply ok_await; [apply keeps_refl|].
      intros lib Hp. rewrite <- (Hcur p eq_refl). exact Hp.
    + apply ok_Await; [apply keeps_refl | apply ok_Throw].
Qed.

Lemma good_initializeModels : good any (initializeModels w).
Proof.
  unfold initializeModels.
  eapply ok_bind.
  { apply ok_await_call; [apply keeps_refl | apply good_getTransformers]. }
  intros lib Hlib.
  eapply ok_bind; [apply (good_load_processor lib Hlib)|]. intros _ _.
  eapply ok_bind; [apply (good_load_visionModel lib Hlib)|]. intros _ _.
  eapply ok_bind; [apply (good_load_tokenizer lib Hlib)|]. intros _ _.
  eapply ok_bind; [apply (good_load_textModel lib Hlib)|]. intros _ _.
  eapply ok_bind; [apply good_read|]. intros s _.
  now apply ok_Ret.
Qed.

Lemma good_text_branch (h : Handles) (text : option string) (out : Out) :
  good any (text_branch w h text out).
Proof.
  unfold text_branch. destruct text as [t|]; [|now apply ok_Ret].
  eapply ok_bind; [apply good_await_any|]. intros [tok textModel] _.
  eapply ok_bind with (P := any).
  { destruct tok; [apply good_call | apply ok_Throw]. }
  intros inputs _.
  eapply ok_bind with (P := any).
  { destruct textModel; [apply good_await_any | apply ok_Throw]. }
  intros result _. now apply ok_Ret.
Qed.

Lemma good_image_branch (h : Handles) (url b64 : option string) (out : Out) :
  good any (image_branch w h url b64 out).
Proof.
  unfold image_branch.
  destruct (truthy_opt url || truthy_opt b64); [|now apply ok_Ret].
  eapply ok_bind.
  { apply ok_await_call; [apply keeps_refl | apply good_getTransformers]. }
  intros lib _.
  eapply ok_bind; [apply good_await_any|]. intros [proc visionModel] _.
  eapply ok_bind with (P := any).
  { destruct (if_truthy url) as [u|]; [|destruct (if_truthy b64) as [b|]].
    - eapply ok_bind; [apply good_start_Read|]. intros pending _.
      eapply ok_bind; [apply good_await_any|]. intros image _.
      now apply ok_Ret.
    - eapply ok_bind; [apply good_start_Read|]. intros pending _.
      eapply ok_bind; [apply good_await_any|]. intros image _.
      now apply ok_Ret.
    - now apply ok_Ret. }
  intros image _.
  eapply ok_bind with (P := any).
  { destruct proc; [apply good_await_any | apply ok_Throw]. }
  intros image_inputs _.
  eapply ok_bind with (P := any).
  { destruct visionModel; [apply good_await_any | apply ok_Throw]. }
  intros result _. now apply ok_Ret.
Qed.

Lemma good_POST (req : Request) : good any (POST w req).
Proof.
  unfold POST.
  apply ok_try_catch with (P := any); [|trivial|intros e; now apply ok_Ret].
  eapply ok_bind; [apply good_await_any|]. intros body _.
  eapply ok_bind.
  { apply ok_await_call; [apply keeps_refl | apply good_initializeModels]. }
  intros h _.
  eapply ok_bind; [apply good_text_branch|]. intros out _.
  eapply ok_bind; [apply good_image_branch|]. intros out' _.
  now apply ok_Ret.
Qed.

(** Handled alone and to completion, a request leaves a store of this
    world. *)
Lemma exec_POST_quiescent (req : Request) (s : Store) :
  quiescent w s -> quiescent w (fst (exec (POST w req) s)).
Proof.
  intros Hs. apply (wp_exec (quiescent w) keeps _ s s).
  apply good_POST; auto. split; [assumption | apply keeps_refl].
Qed.

(** The handler always answers: whatever is thrown inside is caught. *)
Lemma embed_POST_responds (req : Request) (s : Store) :
  exists r, snd (exec (POST w req) s) = Resolved r.
Proof.
  unfold POST. rewrite exec_try_catch.
  destruct (exec _ s) as [s' [r|e]]; cbn; eauto.
Qed.

(** *** The pool *)

Lemma arrivals_pending (reqs : list Request) : all_pending w (arrivals w reqs).
Proof.
  intros i p Hp. unfold arrivals in Hp.
  apply list_lookup_fmap_Some in Hp as (req & -> & _).
  eapply ok_pending; [apply keeps_refl | apply good_POST].
Qed.

Lemma turn_invariant (i : nat) (pool : list Task) (s : Store) :
  quiescent w s -> all_pending w pool ->
  quiescent w (snd (turn i (pool, s)))
  /\ keeps s (snd (turn i (pool, s)))
  /\ all_pending w (fst (turn i (pool, s))).
Proof.
  intros Hs Hpool. unfold turn.
  destruct (pool !! i) as [p|] eqn:Hp; cbn [fst snd].
  - destruct (pending_resume (quiescent w) keeps keeps_refl p s (Hpool i p Hp) Hs)
      as [[Hs' Hk] Hp'].
    destruct (resume p s) as [s' p']. cbn [fst snd] in *.
    split; [assumption|]. split; [assumption|].
    intros j q Hq.
    destruct (decide (i = j)) as [->|Hne].
    + rewrite list_lookup_insert_eq in Hq by (eapply lookup_lt_Some; eauto).
      inversion Hq; subst. assumption.
    + rewrite list_lookup_insert_ne in Hq by assumption. eauto.
  - split; [assumption|]. split; [apply keeps_refl | assumption].
Qed.

Lemma run_schedule_invariant (schedule : list nat) (pool : list Task) (s : Store) :
  quiescent w s -> all_pending w pool ->
  quiescent w (snd (run_schedule schedule (pool, s)))
  /\ keeps s (snd (run_schedule schedule (pool, s)))
  /\ all_pending w (fst (run_schedule schedule (pool, s))).
Proof.
  revert pool s. induction schedule as [|i schedule IH]; intros pool s Hs Hpool.
  - cbn. split; [assumption|]. split; [apply keeps_refl | assumption].
  - cbn [run_schedule fold_left].
    destruct (turn_invariant i pool s Hs Hpool) as (Hs1 & Hk1 & Hp1).
    destruct (turn i (pool, s)) as [pool1 s1]. cbn [fst snd] in *.
    destruct (IH pool1 s1 Hs1 Hp1) as (Hs2 & Hk2 & Hp2).
    split; [assumption|]. split; [|assumption].
    eapply keeps_trans; eassumption.
Qed.

Lemma quiescent_fresh : quiescent w fresh.
Proof.
  split; [repeat split | apply consistent_fresh].
Qed.

Lemma memoized_at_most_once (s : Store) :
  memoized s ->
  imports (trace s) <= 1 /\ forall l, loads l (trace s) <= 1.
Proof.
  intros (H1 & H2 & H3 & H4 & H5).
  assert (Hle : forall T (x : option T), assigned x <= 1)
    by (intros T [x|]; cbn; lia).
  split; [rewrite H1; apply Hle|].
  intros []; [rewrite H2 | rewrite H3 | rewrite H4 | rewrite H5]; apply Hle.
Qed.

End Interleaving.

(** C7: in one process, whatever requests arrive and however the event
    loop interleaves their turns, the library import and each of the four
    loads are started at most once; a variable holds a promise exactly when
    its load was started; and a variable that was assigned keeps its promise
    through everything that runs afterwards. *)
Theorem C7_each_load_starts_at_most_once
  {TextInputs RawImage ImageInputs : Type}
  (w : World TextInputs RawImage ImageInputs)
  (reqs : list Request) (schedule later : list nat) :
  let st := run_schedule schedule (arrivals w reqs, fresh) in
  let st' := run_schedule later st in
  imports (trace (snd st)) <= 1
  /\ (forall l, loads l (trace (snd st)) <= 1)
  /\ memoized (snd st)
  /\ keeps (snd st) (snd st').
Proof.
  intros st st'.
  destruct (run_schedule_invariant w schedule (arrivals w reqs) fresh
              (quiescent_fresh w) (arrivals_pending w reqs))
    as ([Hmemo Hcons] & _ & Hpool).
  fold st in Hmemo, Hcons, Hpool.
  destruct (memoized_at_most_once (snd st) Hmemo) as [Hi Hl].
  split; [assumption|]. split; [assumption|]. split; [assumption|].
  subst st'. destruct st as [pool s]. cbn [fst snd] in *.
  now destruct (run_schedule_invariant w later pool s (conj Hmemo Hcons) Hpool)
    as (_ & Hkeeps & _).
Qed.

(** Two first requests of a process, given turns alternately until both
    have answered: the import and each load appear once in the trace. *)
Example two_concurrent_first_requests :
  let reqs := [mkRequest (Resolved (mkBody (Some "a cat") None None));
               mkRequest (Resolved (mkBody None None (Some "AAAA")))] in
  let st := run_schedule (concat (repeat [0; 1] 14))
                         (arrivals working_world reqs, fresh) in
  fst st =
    [Ret (mkResponse
            (VObject [("text_embedding", VNumbers [1%float; 2%float; 3%float])])
            200 [("content-type", "application/json")]);
     Ret (mkResponse
            (VObject [("image_embedding", VNumbers [0.5%float; 0.25%float])])
            200 [("content-type", "application/json")])]
  /\ trace (snd st) =
       [Import "@xenova/transformers";
        FromPretrained AutoProcessor "Xenova/clip-vit-base-patch16";
        FromPretrained CLIPVisionModelWithProjection "Xenova/clip-vit-base-patch16";
        FromPretrained AutoTokenizer "Xenova/clip-vit-base-patch16";
        FromPretrained CLIPTextModelWithProjection "Xenova/clip-vit-base-patch16";
        Read "data:image/jpeg;base64,AAAA"].
Proof. split; reflexivity. Qed.

End EmbedSpec.

(** * Further properties of the caption handler *)

Module DescribeMore.
Import JS Describe.

(** X1: an uploaded file, with the API key set, whose completion carries a
    non-empty first content, is answered 200 with that content as the body;
    exactly one call goes upstream, carrying the file as a data URL, and
    nothing is written to the console. *)
Theorem caption_success
  (w : World) (fd : FormData) (f : File) (key : string) (s : Store)
  (completion : ChatCompletion) (c : string) :
  get "image" fd = Some (EntryFile f) ->
  OPENAI_API_KEY s = Some key ->
  truthy key = true ->
  chat_completions_create w key
    (caption_request (Base64.encode (file_bytes f))
                     (or_else (file_type f) "image/jpeg"))
    = Resolved completion ->
  first_content completion = Some c ->
  c <> "" ->
  exec (POST w (mkRequest (Resolved fd))) s =
    (mkStore (Some key)
             (upstream_calls s ++
                [caption_request (Base64.encode (file_bytes f))
                                 (or_else (file_type f) "image/jpeg")])
             (console s),
     Resolved (mkResponse (VString c) 200 [("content-type", "application/json")])).
Proof.
  intros Hget Hkey Htruthy Hcreate Hcontent Hc.
  apply DescribeSpec.truthy_true_iff in Hc.
  unfold POST. cbn. rewrite Hget. cbn. rewrite Hkey. cbn. rewrite Htruthy. cbn.
  rewrite Hcreate. cbn. rewrite Hcontent. cbn. rewrite Hc. cbn.
  rewrite <- Hkey. reflexivity.
Qed.

Lemma caption_success_witness :
  exec (POST (mkWorld (fun _ _ =>
                         Resolved (mkChatCompletion
                                     [mkChoice (Some (mkChoiceMessage (Some "A cat.")))])))
             (mkRequest (Resolved [("image", EntryFile (mkFile [] "image/png"))])))
       (mkStore (Some "sk-test") [] [])
  = (mkStore (Some "sk-test")
             [caption_request "" "image/png"]
             [],
     Resolved (mkResponse (VString "A cat.") 200 [("content-type", "application/json")])).
Proof.
  exact (caption_success
           (mkWorld (fun _ _ =>
                       Resolved (mkChatCompletion
                                   [mkChoice (Some (mkChoiceMessage (Some "A cat.")))])))
           [("image", EntryFile (mkFile [] "image/png"))]
           (mkFile [] "image/png") "sk-test" (mkStore (Some "sk-test") [] [])
           (mkChatCompletion [mkChoice (Some (mkChoiceMessage (Some "A cat.")))])
           "A cat." eq_refl eq_refl eq_refl eq_refl eq_refl ltac:(discriminate)).
Defined.

(** X2: with the API key missing or empty, an uploaded file is answered 500
    with the generic error; no call goes upstream, and the configuration
    error is what the console receives. *)
Theorem missing_key_is_500
  (w : World) (fd : FormData) (f : File) (s : Store) :
  get "image" fd = Some (EntryFile f) ->
  truthy_opt (OPENAI_API_KEY s) = false ->
  exec (POST w (mkRequest (Resolved fd))) s =
    (mkStore (OPENAI_API_KEY s) (upstream_calls s)
             (console s ++ [Error "OPENAI_API_KEY environment variable is required"]),
     Resolved (mkResponse (VObject [("error", VString "Failed to process image")])
                          500 [("content-type", "application/json")])).
Proof.
  intros Hget Hkey. unfold POST. cbn. rewrite Hget. cbn.
  destruct (OPENAI_API_KEY s) as [key|] eqn:Hk; cbn in Hkey |- *.
  - rewrite Hkey. cbn. rewrite Hk. reflexivity.
  - rewrite Hk. reflexivity.
Qed.

Lemma missing_key_is_500_witness :
  exec (POST (mkWorld (fun _ _ => Rejected (Error "offline")))
             (mkRequest (Resolved [("image", EntryFile (mkFile [] "image/png"))])))
       (mkStore None [] [])
  = (mkStore None []
             [Error "OPENAI_API_KEY environment variable is required"],
     Resolved (mkResponse (VObject [("error", VString "Failed to process image")])
                          500 [("content-type", "application/json")])).
Proof.
  exact (missing_key_is_500
           (mkWorld (fun _ _ => Rejected (Error "offline")))
           [("image", EntryFile (mkFile [] "image/png"))]
           (mkFile [] "image/png") (mkStore None [] []) eq_refl eq_refl).
Defined.

(** X3: when the upstream call rejects, the response is the generic 500:
    the upstream error goes to the console and never into the body. *)
Theorem upstream_failure_is_500
  (w : World) (fd : FormData) (f : File) (key : string) (s : Store) (e : Exn) :
  get "image" fd = Some (EntryFile f) ->
  OPENAI_API_KEY s = Some key ->
  truthy key = true ->
  chat_completions_create w key
    (caption_request (Base64.encode (file_bytes f))
                     (or_else (file_type f) "image/jpeg"))
    = Rejected e ->
  exec (POST w (mkRequest (Resolved fd))) s =
    (mkStore (Some key)
             (upstream_calls s ++
                [caption_request (Base64.encode (file_bytes f))
                                 (or_else (file_type f) "image/jpeg")])
             (console s ++ [e]),
     Resolved (mkResponse (VObject [("error", VString "Failed to process image")])
                          500 [("content-type", "application/json")])).
Proof.
  intros Hget Hkey Htruthy Hcreate.
  unfold POST. cbn. rewrite Hget. cbn. rewrite Hkey. cbn. rewrite Htruthy. cbn.
  rewrite Hcreate. cbn. rewrite Hkey. reflexivity.
Qed.

Lemma upstream_failure_is_500_witness :
  exec (POST (mkWorld (fun _ _ => Rejected (Error "429 rate limit")))
             (mkRequest (Resolved [("image", EntryFile (mkFile [] ""))])))
       (mkStore (Some "sk-test") [] [])
  = (mkStore (Some "sk-test")
             [caption_request "" "image/jpeg"]
             [Error "429 rate limit"],
     Resolved (mkResponse (VObject [("error", VString "Failed to process image")])
                          500 [("content-type", "application/json")])).
Proof.
  exact (upstream_failure_is_500
           (mkWorld (fun _ _ => Rejected (Error "429 rate limit")))
           [("image", EntryFile (mkFile [] ""))]
           (mkFile [] "") "sk-test" (mkStore (Some "sk-test") [] [])
           (Error "429 rate limit") eq_refl eq_refl eq_refl eq_refl).
Defined.

(** Every way through the handler, on a parsed form with a file. *)
Ltac caption_cases w s f :=
  cbn;
  destruct (OPENAI_API_KEY s) as [key|] eqn:Hkey; cbn;
    [destruct (truthy key) eqn:Htruthy; cbn;
       [destruct (chat_completions_create w key
                    (caption_request (Base64.encode (file_bytes f))
                                     (or_else (file_type f) "image/jpeg")))
          as [completion|e] eqn:Hcreate; cbn;
          [destruct (first_content completion) as [c|] eqn:Hcontent; cbn;
             [destruct (truthy c) eqn:Hc; cbn|]|]|]|].

(** X4: the handler always answers, and in one of three ways: the 400
    response, leaving the store as it was; the generic 500 response, after
    writing exactly one error to the console; or a 200 whose body is a
    non-empty string, with nothing written to the console.  The API key is
    never changed. *)
Theorem caption_response_shapes (w : World) (request : Request) (s : Store) :
  exists r,
    snd (exec (POST w request) s) = Resolved r
    /\ OPENAI_API_KEY (fst (exec (POST w request) s)) = OPENAI_API_KEY s
    /\ ((r = mkResponse (VObject [("error", VString "No image file provided")])
                        400 [("content-type", "application/json")]
         /\ fst (exec (POST w request) s) = s)
        \/ (r = mkResponse (VObject [("error", VString "Failed to process image")])
                           500 [("content-type", "application/json")]
            /\ exists e, console (fst (exec (POST w request) s)) = console s ++ [e])
        \/ (exists c,
              c <> ""
              /\ r = mkResponse (VString c) 200 [("content-type", "application/json")]
              /\ console (fst (exec (POST w request) s)) = console s)).
Proof.
  unfold POST. destruct request as [[fd|e]]; cbn.
  - destruct (get "image" fd) as [[f|str]|]; cbn.
    + caption_cases w s f;
        eexists; (split; [reflexivity|]);
        (split; [cbn; rewrite ?Hkey; reflexivity|]);
        try (right; left; split; [reflexivity|]; eexists; reflexivity).
      right. right. exists c. split; [now apply DescribeSpec.truthy_true_iff|].
      split; reflexivity.
    + destruct (truthy str); cbn; eexists;
        (split; [reflexivity|]); (split; [reflexivity|]).
      * right. left. split; [reflexivity|]. eexists. reflexivity.
      * left. split; reflexivity.
    + eexists. split; [reflexivity|]. split; [reflexivity|].
      left. split; reflexivity.
  - eexists. split; [reflexivity|]. split; [reflexivity|].
    right. left. split; [reflexivity|]. eexists. reflexivity.
Qed.

(** X5: a request makes at most one call upstream, always for the model
    [gpt-5-nano] with the fixed instruction and one image part; a 200 is
    never sent without that call, a 400 never with it. *)
Theorem at_most_one_upstream_call (w : World) (request : Request) (s : Store) :
  (upstream_calls (fst (exec (POST w request) s)) = upstream_calls s
   \/ exists url,
        upstream_calls (fst (exec (POST w request) s)) =
          upstream_calls s ++
          [mkChatRequest "gpt-5-nano"
             [mkChatMessage "user" [TextPart prompt; ImageUrlPart url]]])
  /\ (forall r,
        snd (exec (POST w request) s) = Resolved r ->
        (status r = 200 ->
         upstream_calls (fst (exec (POST w request) s)) <> upstream_calls s)
        /\ (status r = 400 ->
            upstream_calls (fst (exec (POST w request) s)) = upstream_calls s)).
Proof.
  assert (Hgrow : forall (l : list ChatRequest) x, l ++ [x] <> l).
  { intros l x H. apply (f_equal (@length _)) in H.
    rewrite length_app in H. cbn in H. lia. }
  unfold POST. destruct request as [[fd|e]]; cbn.
  - destruct (get "image" fd) as [[f|str]|]; cbn.
    + caption_cases w s f;
        (split; [first [left; reflexivity | right; eexists; reflexivity]|]);
        intros r Hr; inversion Hr; subst; cbn;
        (split; [intros; try discriminate; apply Hgrow
                | intros; try discriminate; reflexivity]).
    + destruct (truthy str); cbn; (split; [left; reflexivity|]);
        intros r Hr; inversion Hr; subst; cbn;
        (split; [discriminate | reflexivity]).
    + split; [left; reflexivity|].
      intros r Hr; inversion Hr; subst; cbn. split; [discriminate | reflexivity].
  - split; [left; reflexivity|].
    intros r Hr; inversion Hr; subst; cbn. split; [discriminate | reflexivity].
Qed.

(** When the form cannot be parsed, the response is the generic 500;
    the parse error goes to the console and nothing is sent upstream. *)
Theorem unparsable_form_is_500 (w : World) (e : Exn) (s : Store) :
  exec (POST w (mkRequest (Rejected e))) s =
    (mkStore (OPENAI_API_KEY s) (upstream_calls s) (console s ++ [e]),
     Resolved (mkResponse (VObject [("error", VString "Failed to process image")])
                          500 [("content-type", "application/json")])).
Proof. reflexivity. Qed.

(** X6: an [image] field that is text, not a file, is not rejected as a
    bad request unless it is empty: the empty string is answered 400, any
    other string 500 (the value has no [arrayBuffer]), and in neither case is
    anything sent upstream. *)
Theorem text_image_field (w : World) (fd : FormData) (str : string) (s : Store) :
  get "image" fd = Some (EntryString str) ->
  upstream_calls (fst (exec (POST w (mkRequest (Resolved fd))) s)) = upstream_calls s
  /\ (str = "" ->
      exec (POST w (mkRequest (Resolved fd))) s =
        (s, Resolved
              (mkResponse (VObject [("error", VString "No image file provided")])
                          400 [("content-type", "application/json")])))
  /\ (str <> "" ->
      snd (exec (POST w (mkRequest (Resolved fd))) s) =
        Resolved
          (mkResponse (VObject [("error", VString "Failed to process image")])
                      500 [("content-type", "application/json")])).
Proof.
  intros Hget. unfold POST. cbn. rewrite Hget. cbn.
  destruct (truthy str) eqn:Hstr; cbn.
  - split; [reflexivity|]. split; [|reflexivity].
    intros ->. discriminate Hstr.
  - split; [reflexivity|]. split; [reflexivity|].
    intros Hne. apply DescribeSpec.truthy_true_iff in Hne. congruence.
Qed.

Lemma text_image_field_witness :
  upstream_calls
    (fst (exec (POST (mkWorld (fun _ _ => Rejected (Error "offline")))
                     (mkRequest (Resolved [("image", EntryString "cat.png")])))
               (mkStore (Some "sk-test") [] [])))
  = [].
Proof.
  exact (proj1 (text_image_field
                  (mkWorld (fun _ _ => Rejected (Error "offline")))
                  [("image", EntryString "cat.png")] "cat.png"
                  (mkStore (Some "sk-test") [] []) eq_refl)).
Defined.

Lemma encode_inj (bs bs' : list byte) :
  Base64.encode bs = Base64.encode bs' -> bs = bs'.
Proof.
  intros H. apply (f_equal Base64.decode) in H.
  rewrite !Base64Facts.decode_encode in H. now inversion H.
Qed.

Lemma append_cancel (p a b : string) :
  String.append p a = String.append p b -> a = b.
Proof.
  induction p as [|c p IH]; cbn; intros H; [assumption|].
  apply IH. now inversion H.
Qed.

(** X7: two uploads that declare the same type make the same upstream
    request only if they hold the same bytes: the image can be recovered
    from what is sent. *)
Theorem upstream_request_determines_bytes (f f' : File) :
  file_type f = file_type f' ->
  caption_request (Base64.encode (file_bytes f))
                  (or_else (file_type f) "image/jpeg")
  = caption_request (Base64.encode (file_bytes f'))
                    (or_else (file_type f') "image/jpeg") ->
  file_bytes f = file_bytes f'.
Proof.
  intros Htype Hreq. rewrite Htype in Hreq.
  set (url_of := fun r : ChatRequest =>
         match messages r with
         | [m] => match content m with
                  | [_; ImageUrlPart u] => u
                  | _ => EmptyString
                  end
         | _ => EmptyString
         end).
  apply (f_equal url_of) in Hreq.
  change (data_url (or_else (file_type f') "image/jpeg")
                   (Base64.encode (file_bytes f))
          = data_url (or_else (file_type f') "image/jpeg")
                     (Base64.encode (file_bytes f'))) in Hreq.
  apply encode_inj.
  apply (append_cancel ";base64,"),
        (append_cancel (or_else (file_type f') "image/jpeg")),
        (append_cancel "data:").
  exact Hreq.
Qed.

Lemma upstream_request_determines_bytes_witness :
  file_bytes (mkFile (Base64.bytes_of_string "foobar") "image/png")
  = file_bytes (mkFile (Base64.bytes_of_string "foobar") "image/png").
Proof.
  exact (upstream_request_determines_bytes
           (mkFile (Base64.bytes_of_string "foobar") "image/png")
           (mkFile (Base64.bytes_of_string "foobar") "image/png")
           eq_refl eq_refl).
Defined.

Lemma encode_length_upto (n : nat) (bs : list byte) :
  length bs <= n ->
  String.length (Base64.encode bs) = 4 * ((length bs + 2) / 3).
Proof.
  revert bs. induction n as [|n IH]; intros bs Hlen.
  - destruct bs; [reflexivity | cbn in Hlen; lia].
  - destruct bs as [|a [|b [|c rest]]]; try reflexivity.
    cbn [Base64.encode String.length length] in *.
    rewrite IH by lia.
    replace (S (S (S (length rest))) + 2) with (length rest + 2 + 1 * 3) by lia.
    rewrite Nat.div_add by lia. lia.
Qed.

(** X8: the payload [convertFileToBase64] returns for a file of [n] bytes
    is [4 * ceil(n / 3)] characters long, whatever the bytes are. *)
Theorem payload_length (f : File) (s : Store) :
  exists r,
    snd (exec (convertFileToBase64 (EntryFile f)) s) = Resolved r
    /\ String.length (base64 r) = 4 * ((length (file_bytes f) + 2) / 3).
Proof.
  eexists. split; [reflexivity|]. cbn.
  apply (encode_length_upto (length (file_bytes f))). lia.
Qed.

End DescribeMore.

(** * Further properties of the embedding handler *)

Module EmbedMore.
Import JS Embed ProgFacts EmbedSpec.

Section OneRequest.
Context {TextInputs RawImage ImageInputs : Type}.
Context (w : World TextInputs RawImage ImageInputs).

Local Abbreviation Store := (Store TextInputs RawImage ImageInputs).
Local Abbreviation Transformers := (Transformers TextInputs RawImage ImageInputs).

(** *** The stores a request can leave *)

Lemma memo_import_current (s : Store) :
  current_import w (memo_import w s) = current_import w s.
Proof.
  unfold current_import, memo_import.
  destruct (transformersPromise s) eqn:H; cbn; rewrite ?H; reflexivity.
Qed.

Lemma memo_import_idem (s : Store) :
  memo_import w (memo_import w s) = memo_import w s.
Proof.
  unfold memo_import.
  destruct (transformersPromise s) eqn:H; cbn; rewrite ?H; reflexivity.
Qed.

Lemma init_store_warm (lib : Transformers) (s : Store) :
  transformersPromise s <> None ->
  processorPromise s <> None ->
  visionModelPromise s <> None ->
  tokenizerPromise s <> None ->
  textModelPromise s <> None ->
  init_store w lib s = s.
Proof.
  unfold init_store, memo_import, memo_processor, memo_visionModel,
    memo_tokenizer, memo_textModel.
  destruct s as [[tp|] [pp|] [vp|] [kp|] [mp|] t]; cbn; congruence.
Qed.

Lemma init_store_assigned (lib : Transformers) (s : Store) :
  transformersPromise (init_store w lib s) <> None
  /\ processorPromise (init_store w lib s) <> None
  /\ visionModelPromise (init_store w lib s) <> None
  /\ tokenizerPromise (init_store w lib s) <> None
  /\ textModelPromise (init_store w lib s) <> None.
Proof.
  unfold init_store, memo_import, memo_processor, memo_visionModel,
    memo_tokenizer, memo_textModel.
  destruct s as [[tp|] [pp|] [vp|] [kp|] [mp|] t]; cbn; repeat split; congruence.
Qed.

Lemma init_store_current (lib : Transformers) (s : Store) :
  current_import w s = Resolved lib ->
  current_import w (init_store w lib s) = Resolved lib.
Proof.
  intros Himp. unfold current_import.
  now rewrite (init_store_import w lib s Himp).
Qed.

Lemma imports_record_Read (src : string) (s : Store) :
  imports (trace (record (Read src) s)) = imports (trace s).
Proof. unfold record. cbn [trace]. rewrite imports_app. cbn. lia. Qed.

Lemma loads_record_Read (l : Loader) (src : string) (s : Store) :
  loads l (trace (record (Read src) s)) = loads l (trace s).
Proof. unfold record. cbn [trace]. rewrite loads_app. cbn. lia. Qed.

(** The store after a request whose import resolved. *)
Lemma POST_store_resolved (body : Body) (s : Store) (lib : Transformers) :
  current_import w s = Resolved lib ->
  fst (exec (POST w (mkRequest (Resolved body))) s) = init_store w lib s
  \/ exists src,
       image_source (image_url body) (image_base64 body) = Some src
       /\ fst (exec (POST w (mkRequest (Resolved body))) s)
          = record (Read src) (init_store w lib s).
Proof.
  intros Himp.
  destruct (POST_exec_answer w body s lib Himp)
    as (s' & pp & vp & kp & mp & _ & Hexec & Hstore).
  rewrite Hexec. exact Hstore.
Qed.

End OneRequest.

(** X9: a failed import is never retried.  Once a request has met a
    rejected import, every later request, whatever its body, is answered 500
    with the message of that same error, and leaves the store as it found it:
    no new import is started. *)
Theorem failed_import_is_not_retried
  {TextInputs RawImage ImageInputs : Type}
  (w : World TextInputs RawImage ImageInputs)
  (s : Store TextInputs RawImage ImageInputs)
  (first later : Body) (e : Exn) :
  current_import w s = Rejected e ->
  let s1 := fst (exec (POST w (mkRequest (Resolved first))) s) in
  exec (POST w (mkRequest (Resolved later))) s1 =
    (s1, Resolved (mkResponse (VObject [("error", VString (message_of e))])
                              500 [("content-type", "application/json")])).
Proof.
  intros Himp s1. subst s1.
  rewrite (POST_exec_rejected w first s e Himp). cbn [fst].
  rewrite (POST_exec_rejected w later (memo_import w s) e)
    by (now rewrite memo_import_current).
  now rewrite memo_import_idem.
Qed.

Lemma failed_import_is_not_retried_witness :
  exec (POST broken_world (mkRequest (Resolved (mkBody (Some "a dog") None None))))
       (fst (exec (POST broken_world (mkRequest (Resolved (mkBody None None None))))
                  fresh))
  = (fst (exec (POST broken_world (mkRequest (Resolved (mkBody None None None))))
               fresh),
     Resolved
       (mkResponse
          (VObject [("error", VString "Cannot find package '@xenova/transformers'")])
          500 [("content-type", "application/json")])).
Proof.
  exact (failed_import_is_not_retried broken_world fresh
           (mkBody None None None) (mkBody (Some "a dog") None None)
           (Error "Cannot find package '@xenova/transformers'") eq_refl).
Defined.

(** X10: the loads are eager and a warm process loads nothing.  After any
    request whose import resolved, all five variables are assigned, whatever
    the body asked for; and a later request starts no import and no load and
    changes none of the five variables. *)
Theorem warm_process_loads_nothing
  {TextInputs RawImage ImageInputs : Type}
  (w : World TextInputs RawImage ImageInputs)
  (s : Store TextInputs RawImage ImageInputs)
  (lib : Transformers TextInputs RawImage ImageInputs)
  (first later : Body) :
  current_import w s = Resolved lib ->
  let s1 := fst (exec (POST w (mkRequest (Resolved first))) s) in
  let s2 := fst (exec (POST w (mkRequest (Resolved later))) s1) in
  (transformersPromise s1 <> None
   /\ processorPromise s1 <> None
   /\ visionModelPromise s1 <> None
   /\ tokenizerPromise s1 <> None
   /\ textModelPromise s1 <> None)
  /\ imports (trace s2) = imports (trace s1)
  /\ (forall l, loads l (trace s2) = loads l (trace s1))
  /\ transformersPromise s2 = transformersPromise s1
  /\ handles_of s2 = handles_of s1.
Proof.
  intros Himp s1 s2.
  assert (Hs1 : exists t, s1 = mkStore
                  (transformersPromise (init_store w lib s))
                  (processorPromise (init_store w lib s))
                  (visionModelPromise (init_store w lib s))
                  (tokenizerPromise (init_store w lib s))
                  (textModelPromise (init_store w lib s)) t).
  { subst s1. destruct (POST_store_resolved w first s lib Himp)
      as [->|(src & _ & ->)]; [|eexists; reflexivity].
    exists (trace (init_store w lib s)). now destruct (init_store w lib s). }
  destruct Hs1 as [t Hs1].
  destruct (init_store_assigned w lib s) as (A1 & A2 & A3 & A4 & A5).
  assert (Himp1 : current_import w s1 = Resolved lib).
  { rewrite Hs1. unfold current_import. cbn.
    now rewrite (init_store_import w lib s Himp). }
  assert (Hwarm : init_store w lib s1 = s1).
  { apply init_store_warm; rewrite Hs1; assumption. }
  split; [rewrite Hs1; cbn; repeat split; assumption|].
  subst s2.
  destruct (POST_store_resolved w later s1 lib Himp1) as [->|(src & _ & ->)];
    rewrite Hwarm.
  - repeat split; reflexivity.
  - split; [apply imports_record_Read|].
    split; [intros l; apply loads_record_Read|].
    split; reflexivity.
Qed.

Lemma warm_process_loads_nothing_witness :
  imports (trace (fst (exec (POST working_world
                               (mkRequest (Resolved (mkBody None None (Some "AAAA")))))
                            (fst (exec (POST working_world
                                          (mkRequest (Resolved (mkBody (Some "a cat") None None))))
                                       fresh)))))
  = imports (trace (fst (exec (POST working_world
                                 (mkRequest (Resolved (mkBody (Some "a cat") None None))))
                              fresh))).
Proof.
  exact (proj1 (proj2 (warm_process_loads_nothing working_world fresh working_library
                         (mkBody (Some "a cat") None None)
                         (mkBody None None (Some "AAAA")) eq_refl))).
Defined.

Lemma POST_response_of
  {TextInputs RawImage ImageInputs : Type}
  (w : World TextInputs RawImage ImageInputs)
  (s : Store TextInputs RawImage ImageInputs) (req : Request) :
  consistent w s ->
  snd (exec (POST w req) s) = Resolved (response_of w req).
Proof.
  intros Hcons. unfold response_of. destruct req as [[body|e]]; cbn [json].
  - pose proof (consistent_current_import w s Hcons) as Himp.
    destruct (import w specifier) as [lib|e] eqn:Hlib.
    + now apply POST_exec_consistent.
    + now rewrite (POST_exec_rejected w body s e Himp).
  - reflexivity.
Qed.

(** With one reason to report, [Promise.all] does not depend on which load
    settles first. *)
Lemma Promise_all_one_reason {A B : Type} (first first' : bool)
  (a : Promise A) (b : Promise B) :
  one_reason a b -> Promise_all first a b = Promise_all first' a b.
Proof.
  intros H. destruct a as [x|e1], b as [y|e2]; cbn; try reflexivity.
  rewrite (H e1 e2 eq_refl eq_refl). now destruct first, first'.
Qed.

(** Two worlds with the same library compute the same response, when the
    loads have one reason to report. *)
Lemma response_of_settle_order
  {TextInputs RawImage ImageInputs : Type}
  (w w' : World TextInputs RawImage ImageInputs) (req : Request) :
  import w specifier = import w' specifier ->
  settle_order_free w ->
  response_of w req = response_of w' req.
Proof.
  intros Himp Hfree. unfold response_of. rewrite <- Himp.
  destruct (json req) as [body|e]; [|reflexivity].
  destruct (import w specifier) as [lib|e] eqn:Hlib; [|reflexivity].
  destruct (Hfree lib Hlib) as [Htext Himage].
  unfold answer_of, answer_via, text_embedding_via, image_embedding_via.
  rewrite (Promise_all_one_reason (tokenizer_settles_first w)
             (tokenizer_settles_first w') _ _ Htext).
  rewrite (Promise_all_one_reason (processor_settles_first w)
             (processor_settles_first w') _ _ Himage).
  reflexivity.
Qed.

Lemma speechless_settle_order_free : settle_order_free speechless_world.
Proof.
  intros lib Hlib. inversion Hlib; subst lib.
  split; intros e1 e2 H1 H2; discriminate.
Qed.

(** When the two text loads fail for different reasons, the message of the
    500 is the reason of the load that settled first: requests are compared
    only in worlds where this choice does not arise. *)
Example two_failed_loads_either_reason :
  snd (exec (POST (mkWorld (fun _ => Resolved mute_library) true true)
               (mkRequest (Resolved (mkBody (Some "a cat") None None)))) fresh)
  = Resolved (mkResponse (VObject [("error", VString "tokenizer.json not found")])
                         500 [("content-type", "application/json")])
  /\ snd (exec (POST (mkWorld (fun _ => Resolved mute_library) false true)
                  (mkRequest (Resolved (mkBody (Some "a cat") None None)))) fresh)
     = Resolved (mkResponse (VObject [("error", VString "text_model.onnx not found")])
                            500 [("content-type", "application/json")]).
Proof. split; reflexivity. Qed.

(** X11: the response to a request does not depend on what the process
    handled before, nor on the order in which the loads settle.  In a world
    where neither pair of loads can fail for two different reasons, the same
    request gets the same response in any two stores a process can be in,
    also when the two processes differ in which load settles first. *)
Theorem response_independent_of_history
  {TextInputs RawImage ImageInputs : Type}
  (w w' : World TextInputs RawImage ImageInputs)
  (s s' : Store TextInputs RawImage ImageInputs) (req : Request) :
  import w specifier = import w' specifier ->
  settle_order_free w ->
  consistent w s ->
  consistent w' s' ->
  snd (exec (POST w req) s) = snd (exec (POST w' req) s').
Proof.
  intros Himp Hfree Hs Hs'. rewrite !POST_response_of by assumption.
  now rewrite (response_of_settle_order w w' req Himp Hfree).
Qed.

Lemma response_independent_of_history_witness :
  snd (exec (POST speechless_world'
               (mkRequest (Resolved (mkBody (Some "a cat") None None))))
            (fst (exec (POST speechless_world'
                          (mkRequest (Resolved (mkBody None None (Some "AAAA")))))
                       fresh)))
  = snd (exec (POST speechless_world
                 (mkRequest (Resolved (mkBody (Some "a cat") None None))))
              fresh).
Proof.
  symmetry.
  refine (response_independent_of_history speechless_world speechless_world'
            fresh _ _ eq_refl speechless_settle_order_free
            (consistent_fresh speechless_world) _).
  apply (exec_POST_quiescent speechless_world' _ fresh
           (quiescent_fresh speechless_world')).
Defined.

(** X12: a body with a usable image field and no [text], in a process of a
    world where the processor and the vision model are loaded and the read
    and both calls succeed, is answered 200 with a body whose only property
    is [image_embedding]; whether the tokenizer and the text model loaded
    does not matter. *)
Theorem image_only_is_200
  {TextInputs RawImage ImageInputs : Type}
  (w : World TextInputs RawImage ImageInputs)
  (s : Store TextInputs RawImage ImageInputs)
  (lib : Transformers TextInputs RawImage ImageInputs)
  (proc : Processor RawImage ImageInputs) (visionModel : VisionModel ImageInputs)
  (url b64 : option string) (src : string)
  (image : RawImage) (image_inputs : ImageInputs) (result : VisionOutput) :
  consistent w s ->
  import w specifier = Resolved lib ->
  image_source url b64 = Some src ->
  AutoProcessor_from_pretrained lib model_id = Resolved proc ->
  CLIPVisionModelWithProjection_from_pretrained lib model_id = Resolved visionModel ->
  RawImage_read lib src = Resolved image ->
  proc (Some image) = Resolved image_inputs ->
  visionModel image_inputs = Resolved result ->
  exists r,
    snd (exec (POST w (mkRequest (Resolved (mkBody None url b64)))) s) = Resolved r
    /\ status r = 200
    /\ body r = VObject [("image_embedding", VNumbers (image_embeds_data result))]
    /\ field "text_embedding" (body r) = None.
Proof.
  intros Hcons Hlib Hsrc Hproc Hvm Himg Hii Hir.
  pose proof (image_embedding_of_Resolved w lib proc visionModel src image
                image_inputs result Hproc Hvm Himg Hii Hir) as Himage.
  rewrite (POST_exec_consistent w _ s lib Hcons Hlib).
  unfold answer_of, answer_via. unfold image_embedding_of in Himage.
  cbn [text image_url image_base64].
  rewrite Hsrc, Himage. eexists. split; [reflexivity|].
  repeat split.
Qed.

Lemma image_only_is_200_witness :
  exists r,
    snd (exec (POST working_world
                 (mkRequest (Resolved (mkBody None (Some "https://example.org/cat.png")
                                              None))))
              fresh) = Resolved r
    /\ status r = 200
    /\ body r = VObject [("image_embedding", VNumbers [0.5%float; 0.25%float])]
    /\ field "text_embedding" (body r) = None.
Proof.
  exact (image_only_is_200 working_world fresh working_library
           (fun _ => Resolved tt)
           (fun _ => Resolved (mkVisionOutput [0.5%float; 0.25%float]))
           (Some "https://example.org/cat.png") None "https://example.org/cat.png"
           tt tt (mkVisionOutput [0.5%float; 0.25%float])
           (consistent_fresh working_world)
           eq_refl eq_refl eq_refl eq_refl eq_refl eq_refl eq_refl).
Defined.

(** X13: the error of the text branch comes first.  When the text branch
    throws, the response is the 500 built from its error, the image branch
    does not run even if an image field is usable ([RawImage.read] is not
    called), and the loads stay memoized. *)
Theorem text_error_comes_first
  {TextInputs RawImage ImageInputs : Type}
  (w : World TextInputs RawImage ImageInputs)
  (s : Store TextInputs RawImage ImageInputs)
  (lib : Transformers TextInputs RawImage ImageInputs)
  (t : string) (url b64 : option string) (e : Exn) :
  consistent w s ->
  import w specifier = Resolved lib ->
  text_embedding_of w lib t = Rejected e ->
  exec (POST w (mkRequest (Resolved (mkBody (Some t) url b64)))) s =
    (init_store w lib s,
     Resolved (mkResponse (VObject [("error", VString (message_of e))])
                          500 [("content-type", "application/json")]))
  /\ reads (trace (init_store w lib s)) = reads (trace s).
Proof.
  intros Hcons Hlib Htext.
  assert (Himp : current_import w s = Resolved lib)
    by (rewrite consistent_current_import; assumption).
  split; [|apply reads_init_store].
  rewrite (POST_exec_resolved w _ s lib Himp). cbv zeta.
  rewrite (consistent_handles w lib s Hcons Hlib). cbn [text].
  erewrite text_branch_exec by reflexivity.
  unfold text_embedding_of in Htext. rewrite Htext. reflexivity.
Qed.

Lemma text_error_comes_first_witness :
  exec (POST speechless_world
          (mkRequest (Resolved (mkBody (Some "a cat") None (Some "AAAA"))))) fresh =
    (init_store speechless_world speechless_library fresh,
     Resolved (mkResponse (VObject [("error", VString "tokenizer.json not found")])
                          500 [("content-type", "application/json")]))
  /\ reads (trace (init_store speechless_world speechless_library fresh)) = [].
Proof.
  exact (text_error_comes_first speechless_world fresh speechless_library
           "a cat" None (Some "AAAA") (Error "tokenizer.json not found")
           (consistent_fresh speechless_world) eq_refl eq_refl).
Defined.

(** X14: when only [image_base64] is usable, the image is read from a
    data URL that declares [image/jpeg], whatever the bytes encode.  That
    read is the only one the request can add; and in a process of a world
    where the library and the two image loads are there, with a text branch
    that does not throw, it is made: the request leaves the initialised store
    with exactly that read recorded, and its response is built from what
    [RawImage.read] returned for the data URL. *)
Theorem base64_is_read_as_jpeg
  {TextInputs RawImage ImageInputs : Type}
  (w : World TextInputs RawImage ImageInputs)
  (s : Store TextInputs RawImage ImageInputs)
  (t url : option string) (b64 : string) :
  truthy_opt url = false ->
  truthy b64 = true ->
  image_source url (Some b64) = Some (String.append "data:image/jpeg;base64," b64)
  /\ (reads (trace (fst (exec (POST w (mkRequest (Resolved (mkBody t url (Some b64))))) s)))
        = reads (trace s)
      \/ reads (trace (fst (exec (POST w (mkRequest (Resolved (mkBody t url (Some b64))))) s)))
        = reads (trace s) ++ [Read (String.append "data:image/jpeg;base64," b64)])
  /\ (forall (lib : Transformers TextInputs RawImage ImageInputs)
             (proc : Processor RawImage ImageInputs)
             (visionModel : VisionModel ImageInputs)
             (tv : option (list number)),
        consistent w s ->
        import w specifier = Resolved lib ->
        AutoProcessor_from_pretrained lib model_id = Resolved proc ->
        CLIPVisionModelWithProjection_from_pretrained lib model_id
          = Resolved visionModel ->
        text_part w lib t = Resolved tv ->
        exec (POST w (mkRequest (Resolved (mkBody t url (Some b64))))) s
          = (record (Read (String.append "data:image/jpeg;base64," b64))
               (init_store w lib s),
             Resolved
               match
                 and_then (RawImage_read lib
                             (String.append "data:image/jpeg;base64," b64))
                   (fun image =>
                      and_then (proc (Some image))
                        (fun image_inputs =>
                           and_then (visionModel image_inputs)
                             (fun result => Resolved (image_embeds_data result))))
               with
               | Resolved v =>
                   mkResponse (value_of_out (mkOut tv (Some v))) 200 json_headers
               | Rejected e => caught e
               end)
        /\ reads (trace (fst (exec (POST w (mkRequest
                                              (Resolved (mkBody t url (Some b64))))) s)))
           = reads (trace s) ++ [Read (String.append "data:image/jpeg;base64," b64)]).
Proof.
  intros Hurl Hb.
  assert (Hsrc : image_source url (Some b64)
                 = Some (String.append "data:image/jpeg;base64," b64)).
  { unfold image_source, if_truthy. unfold truthy_opt in Hurl.
    destruct url as [u|]; [rewrite Hurl|]; now rewrite Hb. }
  split; [exact Hsrc|split].
  - destruct (current_import w s) as [lib|e] eqn:Himp.
    + destruct (POST_store_resolved w (mkBody t url (Some b64)) s lib Himp)
        as [->|(src & Hsrc' & ->)].
      * left. apply reads_init_store.
      * right. cbn [image_url image_base64] in Hsrc'.
        rewrite Hsrc in Hsrc'. inversion Hsrc'; subst src.
        cbn [record trace]. rewrite reads_app, reads_init_store. reflexivity.
    + rewrite (POST_exec_rejected w _ s e Himp). left. apply reads_memo_import.
  - intros lib proc visionModel tv Hcons Hlib Hproc Hvm Htext.
    rewrite (POST_exec_image w (mkBody t url (Some b64)) s lib proc visionModel tv
               (String.append "data:image/jpeg;base64," b64)
               Hcons Hlib Hproc Hvm Htext Hsrc).
    split; [reflexivity|].
    cbn [fst record trace]. rewrite reads_app, reads_init_store. reflexivity.
Qed.

Lemma base64_is_read_as_jpeg_witness :
  exec (POST tracing_world
          (mkRequest (Resolved (mkBody None (Some "") (Some "iVBORw0KGgo="))))) fresh
  = (record (Read "data:image/jpeg;base64,iVBORw0KGgo=")
       (init_store tracing_world tracing_library fresh),
     Resolved (mkResponse (VObject [("image_embedding", VNumbers [1%float])])
                          200 [("content-type", "application/json")]))
  /\ reads (trace (fst (exec (POST tracing_world
                                (mkRequest
                                   (Resolved (mkBody None (Some "")
                                                (Some "iVBORw0KGgo="))))) fresh)))
     = [Read "data:image/jpeg;base64,iVBORw0KGgo="].
Proof.
  exact (proj2 (proj2 (base64_is_read_as_jpeg tracing_world fresh None (Some "")
                         "iVBORw0KGgo=" eq_refl eq_refl))
           tracing_library
           (fun image => match image with
                         | Some src => Resolved src
                         | None => Rejected (TypeError "image is undefined")
                         end)
           (fun image_inputs =>
              Resolved (mkVisionOutput
                          [if String.prefix "data:" image_inputs
                           then 1%float else 0%float]))
           None (consistent_fresh tracing_world) eq_refl eq_refl eq_refl eq_refl).
Defined.

(** X15: the handler answers 400 exactly when the import resolved and the
    body has neither a [text] string nor a usable image field; the response
    is then the missing-input error. *)
Theorem bad_request_exactly_when
  {TextInputs RawImage ImageInputs : Type}
  (w : World TextInputs RawImage ImageInputs)
  (s : Store TextInputs RawImage ImageInputs)
  (request : Body) :
  (exists r,
     snd (exec (POST w (mkRequest (Resolved request))) s) = Resolved r
     /\ status r = 400)
  <->
  ((exists lib, current_import w s = Resolved lib)
   /\ text request = None
   /\ image_source (image_url request) (image_base64 request) = None).
Proof.
  split.
  - intros (r & Hr & Hstatus).
    destruct (current_import w s) as [lib|e] eqn:Himp.
    + split; [eauto|].
      destruct (POST_exec_answer w request s lib Himp)
        as (s' & pp & vp & kp & mp & _ & Hexec & _).
      rewrite Hexec in Hr. cbn [snd] in Hr. inversion Hr as [Hr']. clear Hr.
      subst r. revert Hstatus. unfold answer_via.
      destruct (text request) as [t|];
        [destruct (text_embedding_via w kp mp t) as [tv|e]|]; cbn [and_then];
        try (cbn; discriminate);
        (destruct (image_source _ _) as [src|];
         [destruct (image_embedding_via w pp vp lib src) as [iv|e]|];
         cbn [and_then]; try (cbn; discriminate)).
      intros _. split; reflexivity.
    + rewrite (POST_exec_rejected w request s e Himp) in Hr.
      inversion Hr; subst. discriminate.
  - intros ((lib & Himp) & Htext & Hsrc).
    rewrite (POST_exec_no_input w request s lib Himp Htext Hsrc).
    eexists. split; reflexivity.
Qed.

(** X16: the copy of [convertFileToBase64] in [embed.ts] has the contract
    of the one the caption handler uses: the payload decodes back to the
    file's bytes, the type is the declared one or [image/jpeg] when none is
    declared, and both copies return the same pair. *)
Theorem embed_convertFileToBase64_agrees
  {TextInputs RawImage ImageInputs : Type}
  (f : Describe.File)
  (s : Store TextInputs RawImage ImageInputs) (s' : Describe.Store) :
  exists r,
    exec (convertFileToBase64 f) s = (s, Resolved r)
    /\ Base64.decode (Describe.base64 r) = Some (Describe.file_bytes f)
    /\ Describe.mimeType r
       = (if String.eqb (Describe.file_type f) "" then "image/jpeg"
          else Describe.file_type f)
    /\ snd (exec (Describe.convertFileToBase64 (Describe.EntryFile f)) s')
       = Resolved r.
Proof.
  eexists. split; [reflexivity|]. cbn.
  split; [apply Base64Facts.decode_encode|].
  split; [apply DescribeSpec.or_else_spec | reflexivity].
Qed.

End EmbedMore.

(** * Further properties of turns *)

Module ProgMore.
Import JS ProgFacts.

Section Turns.
Context {St : Type} (I : St -> Prop) (R : St -> St -> Prop).
Hypothesis R_refl : forall s, R s s.

Lemma okx_Ret {A : Type} (P : A -> Prop) (PE : Exn -> Prop) (a : A) :
  P a -> okx I R P PE (Ret a).
Proof. intros Ha Q E HQ HE s0 s Hs. cbn. now apply HQ. Qed.

Lemma okx_Throw {A : Type} (P : A -> Prop) (PE : Exn -> Prop) (e : Exn) :
  PE e -> okx I R P PE (Throw e).
Proof. intros He Q E HQ HE s0 s Hs. cbn. now apply HE. Qed.

Lemma okx_bind {A B : Type} (P : A -> Prop) (P' : B -> Prop) (PE : Exn -> Prop)
  (p : prog St A) (f : A -> prog St B) :
  okx I R P PE p -> (forall a, P a -> okx I R P' PE (f a)) ->
  okx I R P' PE (bind p f).
Proof.
  intros Hp Hf Q E HQ HE s0 s Hs. apply wp_bind.
  apply Hp; [|assumption|assumption].
  intros a s0' s' Ha Hs'. now apply (Hf a Ha).
Qed.

Lemma okx_try_catch {A : Type} (P : A -> Prop) (PE PE' : Exn -> Prop)
  (p : prog St A) (h : Exn -> prog St A) :
  okx I R P PE p -> (forall e, PE e -> okx I R P PE' (h e)) ->
  okx I R P PE' (try_catch p h).
Proof.
  intros Hp Hh Q E HQ HE s0 s Hs. apply wp_try_catch.
  apply Hp; [assumption| |assumption].
  intros e s0' s' He Hs'. now apply (Hh e He).
Qed.

Lemma okx_Await {A : Type} (P : A -> Prop) (PE : Exn -> Prop) (k : prog St A) :
  okx I R P PE k -> okx I R P PE (Await k).
Proof using R_refl.
  intros Hk Q E HQ HE s0 s Hs. cbn. split; [assumption|].
  intros s1 Hs1. apply Hk; auto using ends_start.
Qed.

Lemma okx_await {A : Type} (p : Promise A) :
  okx I R (fun v => p = Resolved v) (fun e => p = Rejected e) (await p).
Proof using R_refl.
  unfold await. apply okx_Await.
  destruct p as [v|e]; [now apply okx_Ret | now apply okx_Throw].
Qed.

Lemma okx_await_call {A : Type} (P : A -> Prop) (PE : Exn -> Prop)
  (p : prog St A) :
  okx I R P PE p -> okx I R P PE (await_call p).
Proof using R_refl.
  intros Hp. unfold await_call.
  apply okx_try_catch with (PE := PE).
  - eapply okx_bind; [exact Hp|].
    intros a Ha. now apply okx_Await, okx_Ret.
  - intros e He. now apply okx_Await, okx_Throw.
Qed.

Lemma okx_weaken {A : Type} (P P' : A -> Prop) (PE PE' : Exn -> Prop)
  (p : prog St A) :
  (forall a, P a -> P' a) -> (forall e, PE e -> PE' e) ->
  okx I R P PE p -> okx I R P' PE' p.
Proof.
  intros HP HPE Hp Q E HQ HE s0 s Hs. apply Hp; auto.
Qed.

(** A turn of a task that can only return [x] ends well, and leaves such a
    task. *)
Lemma wp_run_sync_settles {A : Type} (x : A) (p : prog St A) (s0 s : St) :
  wp I R p (fun a s0 s => a = x /\ ends I R s0 s) (fun _ _ _ => False) s0 s ->
  ends I R s0 (fst (run_sync p s)) /\ settles I R x (snd (run_sync p s)).
Proof.
  revert s0 s. induction p as [a|e|C m k IH|k IH]; intros s0 s; cbn.
  - intros [Ha Hs]. now split.
  - intros [].
  - intros Hwp. destruct (m s) as [s' b]. cbn in Hwp. now apply IH.
  - intros [Hs Hnext]. now split.
Qed.

Lemma settles_resume {A : Type} (x : A) (p : prog St A) (s : St) :
  settles I R x p -> I s ->
  ends I R s (fst (resume p s)) /\ settles I R x (snd (resume p s)).
Proof using R_refl.
  intros Hp Hs. destruct p as [a|e|C m k|k]; cbn in Hp.
  - cbn. split; [now apply ends_start | assumption].
  - destruct Hp.
  - rewrite resume_next_turn. apply wp_run_sync_settles, Hp, Hs.
  - rewrite resume_next_turn. apply wp_run_sync_settles, Hp, Hs.
Qed.

Lemma okx_settles {A : Type} (x : A) (p : prog St A) (s : St) :
  I s ->
  okx I R (fun a => a = x) (fun _ => False) p -> settles I R x p.
Proof using R_refl.
  intros Hs Hp.
  assert (Hwp : forall s', I s' ->
            wp I R p (fun a s0 s => a = x /\ ends I R s0 s) (fun _ _ _ => False) s' s').
  { intros s' Hs'. apply Hp; auto using ends_start. }
  destruct p as [a|e|C m k|k]; cbn.
  - now destruct (Hwp s Hs).
  - exact (Hwp s Hs).
  - exact Hwp.
  - intros s' Hs'. now apply (Hwp s' Hs').
Qed.

End Turns.
End ProgMore.

(** * Responses under interleaving *)

Module EmbedSchedules.
Import JS Embed ProgFacts ProgMore EmbedSpec.

Section Interleaving.
Context {TextInputs RawImage ImageInputs : Type}.
Context (w : World TextInputs RawImage ImageInputs).

Local Abbreviation Store := (Store TextInputs RawImage ImageInputs).
Local Abbreviation Transformers := (Transformers TextInputs RawImage ImageInputs).
Local Abbreviation Handles := (Handles TextInputs RawImage ImageInputs).
Local Abbreviation precise := (okx (quiescent w) keeps).
Local Abbreviation turn_ends := (ends (quiescent w) keeps).

Lemma answer_of_parts (lib : Transformers) (body : Body) :
  answer_of w lib body =
    match text_part w lib (text body) with
    | Rejected e => caught e
    | Resolved tv =>
        match image_part w lib (image_url body) (image_base64 body) with
        | Rejected e => caught e
        | Resolved iv => respond (mkOut tv iv)
        end
    end.
Proof. reflexivity. Qed.

(** *** One [load_once], as a step on the store *)

Lemma wp_load_once {T A : Type}
  (var : Store -> option (Promise T)) (set : Promise T -> Store -> Store)
  (ev : Event) (result : Promise T) (k : unit -> prog Store A)
  (Q : A -> Store -> Store -> Prop) (E : Exn -> Store -> Store -> Prop)
  (s0 s : Store) :
  wp (quiescent w) keeps (k tt) Q E s0
     (match var s with
      | None => set result (record ev s)
      | Some _ => s
      end) ->
  wp (quiescent w) keeps (bind (load_once var set ev result) k) Q E s0 s.
Proof.
  unfold load_once. cbn. destruct (var s); cbn; trivial.
Qed.

Lemma ends_load_once {T : Type}
  (var : Store -> option (Promise T)) (set : Promise T -> Store -> Store)
  (ev : Event) (result : Promise T) (s0 s : Store) :
  ok (quiescent w) keeps (fun _ => True) (load_once var set ev result) ->
  turn_ends s0 s ->
  turn_ends s0 (match var s with
                | None => set result (record ev s)
                | Some _ => s
                end).
Proof.
  intros Hok Hs.
  pose proof (Hok (fun _ => turn_ends) (fun _ => turn_ends)
                (fun _ _ _ _ H => H) (fun _ _ _ H => H) s0 s Hs) as H.
  unfold load_once in H. cbn in H. destruct (var s); exact H.
Qed.

Lemma turn_starts (s : Store) : quiescent w s -> turn_ends s s.
Proof. intros Hs. split; [assumption | apply keeps_refl]. Qed.

(** What [getTransformers] awaits is this world's import. *)
Lemma precise_getTransformers :
  precise (fun lib => import w specifier = Resolved lib)
          (fun e => import w specifier = Rejected e)
          (getTransformers w).
Proof.
  intros Q E HQ HE s0 s Hs. unfold getTransformers.
  apply wp_load_once.
  pose proof (ends_load_once transformersPromise set_transformersPromise
                (Import specifier) (import w specifier) s0 s
                (good_load_import w) Hs) as Hs'.
  assert (Hcur : exists p,
    transformersPromise
      (match transformersPromise s with
       | None => set_transformersPromise (import w specifier) (record (Import specifier) s)
       | Some _ => s
       end) = Some p /\ p = import w specifier).
  { destruct (transformersPromise s) as [p|] eqn:Hp.
    - exists p. split; [assumption|].
      destruct Hs as [[_ [Ht _]] _]. now apply Ht.
    - eexists. split; reflexivity. }
  destruct Hcur as (p & Hcur & ->).
  cbn. rewrite Hcur. cbn. split; [exact Hs'|].
  intros s1 Hs1.
  destruct (import w specifier) as [lib|e]; cbn;
    [apply HQ | apply HE]; auto using turn_starts.
Qed.

Lemma handles_of_loaded (lib : Transformers) (s : Store) :
  consistent w s ->
  import w specifier = Resolved lib ->
  handles_of (memo_textModel lib
                (memo_tokenizer lib
                   (memo_visionModel lib (memo_processor lib s))))
  = handles_for lib.
Proof.
  intros (Ht & Hp & Hv & Hk & Hm) Hlib.
  assert (Hpp : forall p, processorPromise s = Some p ->
                          p = AutoProcessor_from_pretrained lib model_id).
  { intros p Hs. destruct (Hp p Hs) as (l & Hl & ->). congruence. }
  assert (Hvp : forall p, visionModelPromise s = Some p ->
                          p = CLIPVisionModelWithProjection_from_pretrained lib model_id).
  { intros p Hs. destruct (Hv p Hs) as (l & Hl & ->). congruence. }
  assert (Hkp : forall p, tokenizerPromise s = Some p ->
                          p = AutoTokenizer_from_pretrained lib model_id).
  { intros p Hs. destruct (Hk p Hs) as (l & Hl & ->). congruence. }
  assert (Hmp : forall p, textModelPromise s = Some p ->
                          p = CLIPTextModelWithProjection_from_pretrained lib model_id).
  { intros p Hs. destruct (Hm p Hs) as (l & Hl & ->). congruence. }
  clear Ht Hp Hv Hk Hm.
  unfold handles_of, handles_for.
  destruct s as [tp pp vp kp mp t]. cbn in *.
  destruct pp as [pp|]; [rewrite (Hpp pp eq_refl)|];
    (destruct vp as [vp|]; [rewrite (Hvp vp eq_refl)|]);
    (destruct kp as [kp|]; [rewrite (Hkp kp eq_refl)|]);
    (destruct mp as [mp|]; [rewrite (Hmp mp eq_refl)|]);
    reflexivity.
Qed.

(** [initializeModels] returns this world's loads, or throws the import
    error. *)
Lemma precise_initializeModels :
  precise (fun h => exists lib,
                      import w specifier = Resolved lib /\ h = handles_for lib)
          (fun e => import w specifier = Rejected e)
          (initializeModels w).
Proof.
  unfold initializeModels.
  eapply okx_bind.
  { apply okx_await_call; [apply keeps_refl | apply precise_getTransformers]. }
  intros lib Hlib Q E HQ HE s0 s Hs.
  apply wp_load_once, wp_load_once, wp_load_once, wp_load_once.
  pose proof (ends_load_once processorPromise set_processorPromise _ _ s0 _
                (good_load_processor w lib Hlib) Hs) as H1.
  pose proof (ends_load_once visionModelPromise set_visionModelPromise _ _ s0 _
                (good_load_visionModel w lib Hlib) H1) as H2.
  pose proof (ends_load_once tokenizerPromise set_tokenizerPromise _ _ s0 _
                (good_load_tokenizer w lib Hlib) H2) as H3.
  pose proof (ends_load_once textModelPromise set_textModelPromise _ _ s0 _
                (good_load_textModel w lib Hlib) H3) as H4.
  cbn [wp bind read act fst snd].
  apply HQ; [|exact H4].
  exists lib. split; [assumption|].
  destruct Hs as [[_ Hcons] _].
  exact (handles_of_loaded lib s Hcons Hlib).
Qed.

(** One step of a walk through the turns of a block. *)
Ltac turn_step HQ HE :=
  first
    [ match goal with
      | |- _ /\ _ => split
      | |- forall _, _ => intro
      | |- ends _ _ ?s ?s => apply turn_starts; assumption
      | |- ends _ _ _ (record (Read _) _) => apply ends_record_Read
      | |- ends _ _ _ _ => assumption
      | |- wp _ _ (match ?x with _ => _ end) _ _ _ _ => destruct x eqn:?; cbn
      | |- wp _ _ (bind (match ?x with _ => _ end) _) _ _ _ _ => destruct x eqn:?; cbn
      | |- wp _ _ (bind (bind (match ?x with _ => _ end) _) _) _ _ _ _ =>
          destruct x eqn:?; cbn
      | |- wp _ _ (bind (call ?r) _) _ _ _ _ => unfold call; destruct r eqn:?; cbn
      end
    | progress cbn
    | apply HQ
    | apply HE ].

(** What a branch returned, from the calls it made. *)
Ltac value_fact :=
  unfold text_part, image_part, image_source, text_embedding_of,
         text_embedding_via, image_embedding_of, image_embedding_via;
  cbn;
  repeat (match goal with
          | H : _ = _ |- _ => rewrite H
          end; cbn);
  auto.

Lemma precise_text_branch (lib : Transformers) (text : option string) :
  precise (fun out => text_part w lib text = Resolved (text_embedding out)
                      /\ image_embedding out = None)
          (fun e => text_part w lib text = Rejected e)
          (text_branch w (handles_for lib) text (mkOut None None)).
Proof.
  intros Q E HQ HE s0 s Hs.
  unfold text_branch, handles_for.
  destruct text as [t|]; cbn.
  - destruct (AutoTokenizer_from_pretrained lib model_id) as [tok|e1] eqn:Htok,
             (CLIPTextModelWithProjection_from_pretrained lib model_id)
               as [tm|e2] eqn:Htm;
      cbn; repeat turn_step HQ HE; try value_fact.
  - apply HQ; [split; reflexivity | assumption].
Qed.

Lemma image_source_unusable (url b64 : option string) :
  truthy_opt url || truthy_opt b64 = false -> image_source url b64 = None.
Proof.
  unfold image_source, if_truthy, truthy_opt.
  destruct url as [u|], b64 as [b|]; cbn;
    repeat match goal with
           | |- context [truthy ?x] => destruct (truthy x); cbn
           end;
    intros; congruence.
Qed.

Lemma precise_image_branch (lib : Transformers) (url b64 : option string)
  (out : Out) :
  import w specifier = Resolved lib ->
  image_embedding out = None ->
  precise (fun out' => image_part w lib url b64 = Resolved (image_embedding out')
                       /\ text_embedding out' = text_embedding out)
          (fun e => image_part w lib url b64 = Rejected e)
          (image_branch w (handles_for lib) url b64 out).
Proof.
  intros Hlib Hnone. unfold image_branch.
  destruct (truthy_opt url || truthy_opt b64) eqn:Htest.
  - eapply okx_bind.
    { apply okx_await_call; [apply keeps_refl|].
      eapply okx_weaken; [| |apply precise_getTransformers].
      - intros lib' Hlib'. exact Hlib'.
      - intros e He. congruence. }
    intros lib' Hlib'. assert (lib' = lib) by congruence. subst lib'.
    intros Q E HQ HE s0 s Hs. unfold handles_for. cbn.
    destruct (if_truthy url) as [u|] eqn:Hu;
      [|destruct (if_truthy b64) as [b|] eqn:Hb;
        [|exfalso; revert Htest Hu Hb; unfold if_truthy, truthy_opt;
          destruct url as [u|], b64 as [b|]; cbn;
          repeat match goal with
                 | |- context [truthy ?x] => destruct (truthy x); cbn
                 end;
          intros; congruence]];
    destruct (AutoProcessor_from_pretrained lib model_id) as [proc|e1] eqn:Hproc,
             (CLIPVisionModelWithProjection_from_pretrained lib model_id)
               as [vm|e2] eqn:Hvm;
      cbn; repeat turn_step HQ HE; try value_fact.
  - apply okx_Ret. unfold image_part.
    rewrite (image_source_unusable url b64 Htest), Hnone. now split.
Qed.

(** Whenever it runs, the handler returns the response of its request. *)
Lemma precise_POST (req : Request) :
  precise (fun r => r = response_of w req) (fun _ => False) (POST w req).
Proof.
  unfold POST.
  apply okx_try_catch with (PE := fun e => caught e = response_of w req);
    [|intros e He; now apply okx_Ret].
  eapply okx_bind.
  { eapply okx_weaken; [| |apply okx_await, keeps_refl].
    - intros body Hbody. exact Hbody.
    - intros e He. cbn beta in He. unfold response_of. now rewrite He. }
  intros body Hbody. cbv zeta.
  eapply okx_bind.
  { apply okx_await_call; [apply keeps_refl|].
    eapply okx_weaken; [| |apply precise_initializeModels].
    - intros h Hh. exact Hh.
    - intros e He. unfold response_of. now rewrite Hbody, He. }
  intros h (lib & Hlib & ->).
  eapply okx_bind.
  { eapply okx_weaken; [| |apply (precise_text_branch lib (text body))].
    - intros out Hout. exact Hout.
    - intros e He. unfold response_of.
      now rewrite Hbody, Hlib, answer_of_parts, He. }
  intros out [Htext Hnone].
  eapply okx_bind.
  { eapply okx_weaken;
      [| |apply (precise_image_branch lib (image_url body) (image_base64 body)
                   out Hlib Hnone)].
    - intros out' Hout'. exact Hout'.
    - intros e He. unfold response_of.
      now rewrite Hbody, Hlib, answer_of_parts, Htext, He. }
  intros out' [Himage Hsame]. apply okx_Ret.
  unfold response_of. rewrite Hbody, Hlib, answer_of_parts, Htext, Himage.
  rewrite <- Hsame. now destruct out'.
Qed.

(** *** The pool *)

Lemma arrivals_settle (reqs : list Request) (i : nat) (p : Task) :
  arrivals w reqs !! i = Some p ->
  exists req,
    reqs !! i = Some req
    /\ settles (quiescent w) keeps (response_of w req) p.
Proof.
  intros Hp. unfold arrivals in Hp.
  apply list_lookup_fmap_Some in Hp as (req & -> & Hreq).
  exists req. split; [assumption|].
  apply (okx_settles (quiescent w) keeps keeps_refl _ _ fresh (quiescent_fresh w)).
  apply precise_POST.
Qed.

Lemma turn_settles (reqs : list Request) (i : nat) (pool : list Task) (s : Store) :
  quiescent w s ->
  (forall j p, pool !! j = Some p ->
     exists req, reqs !! j = Some req
                 /\ settles (quiescent w) keeps (response_of w req) p) ->
  quiescent w (snd (turn i (pool, s)))
  /\ (forall j p, fst (turn i (pool, s)) !! j = Some p ->
        exists req, reqs !! j = Some req
                    /\ settles (quiescent w) keeps (response_of w req) p).
Proof.
  intros Hs Hpool. unfold turn.
  destruct (pool !! i) as [p|] eqn:Hp; cbn [fst snd]; [|now split].
  destruct (Hpool i p Hp) as (req & Hreq & Hsettles).
  destruct (settles_resume (quiescent w) keeps keeps_refl _ p s Hsettles Hs)
    as [[Hs' _] Hp'].
  destruct (resume p s) as [s' p']. cbn [fst snd] in *.
  split; [assumption|].
  intros j q Hq.
  destruct (decide (i = j)) as [->|Hne].
  - rewrite list_lookup_insert_eq in Hq by (eapply lookup_lt_Some; eauto).
    inversion Hq; subst. eauto.
  - rewrite list_lookup_insert_ne in Hq by assumption. eauto.
Qed.

Lemma run_schedule_settles (reqs : list Request) (schedule : list nat)
  (pool : list Task) (s : Store) :
  quiescent w s ->
  (forall j p, pool !! j = Some p ->
     exists req, reqs !! j = Some req
                 /\ settles (quiescent w) keeps (response_of w req) p) ->
  forall j p, fst (run_schedule schedule (pool, s)) !! j = Some p ->
    exists req, reqs !! j = Some req
                /\ settles (quiescent w) keeps (response_of w req) p.
Proof.
  revert pool s. induction schedule as [|i schedule IH]; intros pool s Hs Hpool.
  - exact Hpool.
  - cbn [run_schedule fold_left].
    destruct (turn_settles reqs i pool s Hs Hpool) as [Hs1 Hp1].
    destruct (turn i (pool, s)) as [pool1 s1]. cbn [fst snd] in *.
    exact (IH pool1 s1 Hs1 Hp1).
Qed.

End Interleaving.



End EmbedSchedules.
